(** * HOLOKIA-AVATAR: the chat front end of the lipsync demo

    A shallow embedding of [lipsync-demo/src/components/ChatInterface.jsx]
    and of the three remote service clients it talks to ([apiClient],
    [ttsService], [sttService]).

    - JavaScript strings are sequences of UTF-16 code units.
    - JavaScript values are the JSON-shaped data the program handles; the
      conversion of a value to a string, which a template literal applies,
      is a step of the computation that can throw.
    - A handler is a computation in a small trace-and-exception monad: it
      emits the state-setter calls, storage operations, timers and HTTP
      requests it performs, in program order, and either returns or throws.
    - React state is a record; a handler reads the values captured by the
      render it was created in and its emitted updates are applied in order.
    - The remote services, the clock, the language identification library
      ([franc-min]) and the viseme analyser ([wawa-lipsync]) are inputs. *)

From Stdlib Require Import ZArith NArith Lia String Ascii DecimalString.
From stdpp Require Import base list gmap.

Local Open Scope N_scope.
Local Open Scope list_scope.

(** ** JavaScript strings *)

Module JsString.

(** A string is its sequence of UTF-16 code units. *)
Definition jsstring : Type := list N.

(** Literals of this file are written as UTF-8 text; [js] decodes them into
    code units (a supplementary code point becomes a surrogate pair). *)
Fixpoint utf16_of_utf8 (bs : list N) : jsstring :=
  match bs with
  | [] => []
  | b1 :: r1 =>
    if b1 <? 128 then b1 :: utf16_of_utf8 r1
    else match r1 with
    | [] => [65533]
    | b2 :: r2 =>
      if b1 <? 224 then ((b1 mod 32) * 64 + b2 mod 64) :: utf16_of_utf8 r2
      else match r2 with
      | [] => [65533]
      | b3 :: r3 =>
        if b1 <? 240
        then ((b1 mod 16) * 4096 + (b2 mod 64) * 64 + b3 mod 64) :: utf16_of_utf8 r3
        else match r3 with
        | [] => [65533]
        | b4 :: r4 =>
          let cp := (b1 mod 8) * 262144 + (b2 mod 64) * 4096
                    + (b3 mod 64) * 64 + b4 mod 64 - 65536 in
          (55296 + cp / 1024) :: (56320 + cp mod 1024) :: utf16_of_utf8 r4
        end
      end
    end
  end.

Definition js (s : string) : jsstring :=
  utf16_of_utf8 (map N_of_ascii (list_ascii_of_string s)).

Arguments js : simpl never.

(** ECMAScript WhiteSpace and LineTerminator code points, the ones
    [String.prototype.trim] strips. *)
Definition is_js_whitespace (c : N) : bool :=
  (c =? 9) || (c =? 10) || (c =? 11) || (c =? 12) || (c =? 13) || (c =? 32)
  || (c =? 160) || (c =? 5760) || ((8192 <=? c) && (c <=? 8202))
  || (c =? 8232) || (c =? 8233) || (c =? 8239) || (c =? 8287)
  || (c =? 12288) || (c =? 65279).

Fixpoint trimStart (s : jsstring) : jsstring :=
  match s with
  | [] => []
  | c :: r => if is_js_whitespace c then trimStart r else s
  end.

Definition trimEnd (s : jsstring) : jsstring := rev (trimStart (rev s)).

(** [s.trim()] *)
Definition trim (s : jsstring) : jsstring := trimEnd (trimStart s).

(** The digits of a non-negative integer. *)
Definition digits (z : Z) : string := NilZero.string_of_int (Z.to_int z).

(** The IEEE double nearest to a non-negative integer, ties to the even
    significand: the Number an integer literal denotes.  Integers below
    2^53 are doubles themselves. *)
Definition nearest_double (a : Z) : Z :=
  (if a <? 2 ^ 53 then a
   else
     let sh := Z.log2 a - 52 in
     let q := Z.shiftr a sh in
     let r := a - Z.shiftl q sh in
     let half := Z.shiftl 1 (sh - 1) in
     let q' := if (half <? r) || ((r =? half) && Z.odd q) then q + 1 else q in
     Z.shiftl q' sh)%Z.

(** Number::toString looks for the fewest digits [s] (there are [k] of
    them) such that [s * 10^(d-k)] still denotes the double [x], a number
    of [d] digits; of two such [s] the one closer to [x], the even one on
    a tie.  The candidates for [k] digits are the first [k] digits of [x]
    and their successor. *)
Fixpoint shortest (fuel : nat) (k d x : Z) : Z * Z :=
  let p := (10 ^ (d - k))%Z in
  let lo := (x / p)%Z in
  let hi := (lo + 1)%Z in
  let reads s := (nearest_double (s * p) =? x)%Z in
  match fuel with
  | O => (x, d)
  | S f =>
    if (d <=? k)%Z then (x, d)
    else if reads lo && reads hi then
      (if (x - lo * p <? hi * p - x)%Z
          || ((x - lo * p =? hi * p - x)%Z && Z.even lo)
       then (lo, k) else (hi, k))
    else if reads lo then (lo, k)
    else if reads hi then (hi, k)
    else shortest f (k + 1)%Z d x
  end.

Fixpoint zeros (n : nat) : string :=
  match n with O => EmptyString | S m => String "0" (zeros m) end.

(** Number::toString of a non-negative integer-valued double: its digits
    below 2^53; beyond, the shortest digits that read back as the same
    double, followed by zeros when the number has at most 21 digits and in
    exponent form otherwise. *)
Definition number_to_string (x : Z) : string :=
  if (x <? 2 ^ 53)%Z then digits x
  else if (2 ^ 1024 <=? x)%Z then "Infinity"%string
  else
    let d := Z.of_nat (String.length (digits x)) in
    let '(s, k) := shortest 17 1%Z d x in
    let '(s, k, n) := if (s =? 10 ^ k)%Z then (1, 1, d + 1)%Z else (s, k, d) in
    let ds := digits s in
    if (n <=? 21)%Z then String.append ds (zeros (Z.to_nat (n - k)))
    else
      let exponent := String.append "e+"%string (digits (n - 1)) in
      match ds with
      | String c EmptyString => String c exponent
      | String c rest => String c (String.append "."%string (String.append rest exponent))
      | EmptyString => EmptyString
      end.

(** [String(n)] for the Number that the integer literal [z] denotes. *)
Definition decimal (z : Z) : jsstring :=
  js (if (z <? 0)%Z
      then String "-" (number_to_string (nearest_double (- z)))
      else number_to_string (nearest_double z)).

End JsString.
Export JsString.

(** ** JavaScript values *)

Module Js.

(** The values the program handles: JSON-shaped data (parsed response
    bodies, request payloads, error objects), [File] objects handed to the
    speech-to-text client, and the built-in functions a plain object
    inherits from [Object.prototype].  Numbers are the integer-valued ones,
    [JNum n] being the Number that the literal [n] denotes (the double
    nearest to [n]); objects are association lists in property order, the
    first binding of a key being the one that is read. *)
#[warnings="-register-all"]
Inductive JsVal : Type :=
| JUndefined
| JNull
| JBool (b : bool)
| JNum (n : Z)
| JStr (s : jsstring)
| JArr (xs : list JsVal)
| JObj (fields : list (jsstring * JsVal))
| JFile (name : jsstring)
| JFun (name : jsstring).

(** ToBoolean *)
Definition truthy (v : JsVal) : bool :=
  match v with
  | JUndefined | JNull => false
  | JBool b => b
  | JNum n => negb (n =? 0)%Z
  | JStr s => match s with [] => false | _ => true end
  | JArr _ | JObj _ | JFile _ | JFun _ => true
  end.

(** [a || b] *)
Definition js_or (a b : JsVal) : JsVal := if truthy a then a else b.

Definition nullish (v : JsVal) : bool :=
  match v with JUndefined | JNull => true | _ => false end.

(** The string a value is converted to: ToString for a primitive, and for
    an object the outcome of the built-in [toString] of its kind (the
    join of an array, the tag of a plain object or of a [File], the text
    V8 gives for a built-in function).  The conversion of an object that
    may not reach that built-in, or whose built-in throws, is [converted]
    below. *)
Fixpoint to_string (v : JsVal) : jsstring :=
  match v with
  | JUndefined => js "undefined"
  | JNull => js "null"
  | JBool true => js "true"
  | JBool false => js "false"
  | JNum n => decimal n
  | JStr s => s
  | JArr xs =>
    (fix join (l : list JsVal) : jsstring :=
       match l with
       | [] => []
       | x :: r =>
         let sx := match x with JUndefined | JNull => [] | _ => to_string x end in
         match r with [] => sx | _ => sx ++ js "," ++ join r end
       end) xs
  | JObj _ => js "[object Object]"
  | JFile _ => js "[object File]"
  | JFun name =>
    (* the member [constructor] of [Object.prototype] is the function
       [Object]; the other members are named as their keys *)
    js "function "
    ++ (if bool_decide (name = js "constructor") then js "Object" else name)
    ++ js "() { [native code] }"
  end.

Fixpoint assoc (k : jsstring) (fields : list (jsstring * JsVal)) : option JsVal :=
  match fields with
  | [] => None
  | (k', v) :: r => if decide (k = k') then Some v else assoc k r
  end.

(** Function-valued members of [Object.prototype]. *)
Definition object_prototype_methods : list jsstring :=
  [js "constructor"; js "hasOwnProperty"; js "isPrototypeOf";
   js "propertyIsEnumerable"; js "toLocaleString"; js "toString"; js "valueOf";
   js "__defineGetter__"; js "__defineSetter__";
   js "__lookupGetter__"; js "__lookupSetter__"].

Definition inherited (k : jsstring) : JsVal :=
  if bool_decide (k ∈ object_prototype_methods) then JFun k
  else if bool_decide (k = js "__proto__") then JObj []
  else JUndefined.

(** [v.k] / [v[k]] on a value that is neither [null] nor [undefined]: an
    own property, else what [Object.prototype] provides, else [undefined].
    (On [null] and [undefined] this is the value of [v?.k].)  The members
    of the String, Array, Number, Boolean and Blob prototypes are left out:
    the program reads none of them through a property access. *)
Definition prop (v : JsVal) (k : jsstring) : JsVal :=
  match v with
  | JUndefined | JNull => JUndefined
  | JObj fields =>
    match assoc k fields with Some x => x | None => inherited k end
  | JFile name => if bool_decide (k = js "name") then JStr name else inherited k
  | _ => inherited k
  end.

(** [new Error(msg)] and the engine's own errors, as the catch clauses of
    the program see them (they read [message] and [response]). *)
Definition js_error (name : string) (msg : jsstring) : JsVal :=
  JObj [(js "name", JStr (js name)); (js "message", JStr msg)].

Definition own_keys (v : JsVal) : list jsstring :=
  match v with JObj fields => map fst fields | _ => [] end.

(** What a function of [Object.prototype] gives when the conversion of the
    plain object [this] to a primitive calls it, without arguments: a
    value that is not an object, an object, or an exception. *)
Inductive Called : Type :=
| Primitive (v : JsVal)
| AnObject
| Raises.

(** [toString] gives the tag; [valueOf] gives [this] and [constructor]
    (the function [Object]) a new object; [hasOwnProperty] and
    [propertyIsEnumerable] look for the key "undefined"; the two lookups
    of accessors find none.  [toLocaleString] calls [this.toString()]
    again, which either is [toLocaleString] itself (the recursion is cut
    off by a RangeError) or is the member that has just failed to give a
    primitive; [__defineGetter__] and [__defineSetter__] reject an
    accessor that is [undefined]. *)
Definition call_without_arguments (f : jsstring) (this : JsVal) : Called :=
  if bool_decide (f = js "toString")
  then Primitive (JStr (js "[object Object]"))
  else if bool_decide (f = js "valueOf") || bool_decide (f = js "constructor")
  then AnObject
  else if bool_decide (f = js "hasOwnProperty")
          || bool_decide (f = js "propertyIsEnumerable")
  then Primitive (JBool (bool_decide (js "undefined" ∈ own_keys this)))
  else if bool_decide (f = js "isPrototypeOf") then Primitive (JBool false)
  else if bool_decide (f = js "__lookupGetter__")
          || bool_decide (f = js "__lookupSetter__")
  then Primitive JUndefined
  else Raises.

(** OrdinaryToPrimitive with hint string, on a plain object: the member
    [toString] is tried, then [valueOf]; a member that is not a function
    is passed over, and so is a result that is an object; with no
    primitive in hand a TypeError is thrown ([None]). *)
Definition to_primitive (o : JsVal) : option JsVal :=
  let attempt k :=
    match prop o k with
    | JFun g => call_without_arguments g o
    | _ => AnObject
    end in
  match attempt (js "toString") with
  | Primitive p => Some p
  | Raises => None
  | AnObject =>
    match attempt (js "valueOf") with
    | Primitive p => Some p
    | _ => None
    end
  end.

(** ToString: the string, or [None] when the conversion throws.  A plain
    object goes through [to_primitive] (parsed JSON with an own member
    [toString] has no function there: the conversion throws); an array
    joins the conversions of its elements, [null] and [undefined] counting
    as empty. *)
Fixpoint converted (v : JsVal) : option jsstring :=
  match v with
  | JArr xs =>
    (fix join (l : list JsVal) : option jsstring :=
       match l with
       | [] => Some []
       | x :: r =>
         match (match x with JUndefined | JNull => Some [] | _ => converted x end) with
         | None => None
         | Some sx =>
           match r with
           | [] => Some sx
           | _ => match join r with
                  | Some sr => Some (sx ++ js "," ++ sr)
                  | None => None
                  end
           end
         end
       end) xs
  | JObj _ =>
    match to_primitive v with
    | Some p => Some (to_string p)
    | None => None
    end
  | _ => Some (to_string v)
  end.

End Js.
Export Js.

(** ** Component state *)

(** A chat message.  [text] is whatever value the program stored (the reply
    body's [text] member is not checked to be a string). *)
Record Message : Type := { text : JsVal; sender : jsstring }.

(** The wire form of a message in the chat request. *)
Record HistoryEntry : Type := { role : jsstring; content : JsVal }.

(** The [useState] cells and the [prevViseme] ref of [ChatInterface], and
    the browser's [localStorage].  The item stored under a key is kept as
    the message list whose JSON serialisation it is.  [lastMsgIdx] (which
    only selects the message to animate) and the DOM refs are left out. *)
Record State : Type := {
  message : JsVal;
  messages : list Message;
  isLoading : bool;
  audios : list JsVal;
  theme : jsstring;
  isMinimized : bool;
  error : JsVal;
  notification : JsVal;
  langNotification : JsVal;
  sendFeedback : bool;
  detectedLang : JsVal;
  showLangIndicator : bool;
  isPlaying : bool;
  audioFile : jsstring;
  detectedVisemes : list jsstring;
  prevViseme : option jsstring;
  localStorage : gmap jsstring (list Message)
}.

Module Update.

Definition set_message (x : JsVal) (st : State) : State :=
  {| message := x; messages := messages st; isLoading := isLoading st;
     audios := audios st; theme := theme st; isMinimized := isMinimized st;
     error := error st; notification := notification st;
     langNotification := langNotification st;
     sendFeedback := sendFeedback st; detectedLang := detectedLang st;
     showLangIndicator := showLangIndicator st; isPlaying := isPlaying st;
     audioFile := audioFile st; detectedVisemes := detectedVisemes st;
     prevViseme := prevViseme st; localStorage := localStorage st |}.

Definition set_messages (x : list Message) (st : State) : State :=
  {| message := message st; messages := x; isLoading := isLoading st;
     audios := audios st; theme := theme st; isMinimized := isMinimized st;
     error := error st; notification := notification st;
     langNotification := langNotification st;
     sendFeedback := sendFeedback st; detectedLang := detectedLang st;
     showLangIndicator := showLangIndicator st; isPlaying := isPlaying st;
     audioFile := audioFile st; detectedVisemes := detectedVisemes st;
     prevViseme := prevViseme st; localStorage := localStorage st |}.

Definition set_isLoading (x : bool) (st : State) : State :=
  {| message := message st; messages := messages st; isLoading := x;
     audios := audios st; theme := theme st; isMinimized := isMinimized st;
     error := error st; notification := notification st;
     langNotification := langNotification st;
     sendFeedback := sendFeedback st; detectedLang := detectedLang st;
     showLangIndicator := showLangIndicator st; isPlaying := isPlaying st;
     audioFile := audioFile st; detectedVisemes := detectedVisemes st;
     prevViseme := prevViseme st; localStorage := localStorage st |}.

Definition set_audios (x : list JsVal) (st : State) : State :=
  {| message := message st; messages := messages st;
     isLoading := isLoading st; audios := x; theme := theme st;
     isMinimized := isMinimized st; error := error st;
     notification := notification st;
     langNotification := langNotification st;
     sendFeedback := sendFeedback st; detectedLang := detectedLang st;
     showLangIndicator := showLangIndicator st; isPlaying := isPlaying st;
     audioFile := audioFile st; detectedVisemes := detectedVisemes st;
     prevViseme := prevViseme st; localStorage := localStorage st |}.

Definition set_theme (x : jsstring) (st : State) : State :=
  {| message := message st; messages := messages st;
     isLoading := isLoading st; audios := audios st; theme := x;
     isMinimized := isMinimized st; error := error st;
     notification := notification st;
     langNotification := langNotification st;
     sendFeedback := sendFeedback st; detectedLang := detectedLang st;
     showLangIndicator := showLangIndicator st; isPlaying := isPlaying st;
     audioFile := audioFile st; detectedVisemes := detectedVisemes st;
     prevViseme := prevViseme st; localStorage := localStorage st |}.

Definition set_isMinimized (x : bool) (st : State) : State :=
  {| message := message st; messages := messages st;
     isLoading := isLoading st; audios := audios st; theme := theme st;
     isMinimized := x; error := error st; notification := notification st;
     langNotification := langNotification st;
     sendFeedback := sendFeedback st; detectedLang := detectedLang st;
     showLangIndicator := showLangIndicator st; isPlaying := isPlaying st;
     audioFile := audioFile st; detectedVisemes := detectedVisemes st;
     prevViseme := prevViseme st; localStorage := localStorage st |}.

Definition set_error (x : JsVal) (st : State) : State :=
  {| message := message st; messages := messages st;
     isLoading := isLoading st; audios := audios st; theme := theme st;
     isMinimized := isMinimized st; error := x;
     notification := notification st;
     langNotification := langNotification st;
     sendFeedback := sendFeedback st; detectedLang := detectedLang st;
     showLangIndicator := showLangIndicator st; isPlaying := isPlaying st;
     audioFile := audioFile st; detectedVisemes := detectedVisemes st;
     prevViseme := prevViseme st; localStorage := localStorage st |}.

Definition set_notification (x : JsVal) (st : State) : State :=
  {| message := message st; messages := messages st;
     isLoading := isLoading st; audios := audios st; theme := theme st;
     isMinimized := isMinimized st; error := error st; notification := x;
     langNotification := langNotification st;
     sendFeedback := sendFeedback st; detectedLang := detectedLang st;
     showLangIndicator := showLangIndicator st; isPlaying := isPlaying st;
     audioFile := audioFile st; detectedVisemes := detectedVisemes st;
     prevViseme := prevViseme st; localStorage := localStorage st |}.

Definition set_langNotification (x : JsVal) (st : State) : State :=
  {| message := message st; messages := messages st;
     isLoading := isLoading st; audios := audios st; theme := theme st;
     isMinimized := isMinimized st; error := error st;
     notification := notification st; langNotification := x;
     sendFeedback := sendFeedback st; detectedLang := detectedLang st;
     showLangIndicator := showLangIndicator st; isPlaying := isPlaying st;
     audioFile := audioFile st; detectedVisemes := detectedVisemes st;
     prevViseme := prevViseme st; localStorage := localStorage st |}.

Definition set_sendFeedback (x : bool) (st : State) : State :=
  {| message := message st; messages := messages st;
     isLoading := isLoading st; audios := audios st; theme := theme st;
     isMinimized := isMinimized st; error := error st;
     notification := notification st;
     langNotification := langNotification st; sendFeedback := x;
     detectedLang := detectedLang st;
     showLangIndicator := showLangIndicator st; isPlaying := isPlaying st;
     audioFile := audioFile st; detectedVisemes := detectedVisemes st;
     prevViseme := prevViseme st; localStorage := localStorage st |}.

Definition set_detectedLang (x : JsVal) (st : State) : State :=
  {| message := message st; messages := messages st;
     isLoading := isLoading st; audios := audios st; theme := theme st;
     isMinimized := isMinimized st; error := error st;
     notification := notification st;
     langNotification := langNotification st;
     sendFeedback := sendFeedback st; detectedLang := x;
     showLangIndicator := showLangIndicator st; isPlaying := isPlaying st;
     audioFile := audioFile st; detectedVisemes := detectedVisemes st;
     prevViseme := prevViseme st; localStorage := localStorage st |}.

Definition set_showLangIndicator (x : bool) (st : State) : State :=
  {| message := message st; messages := messages st;
     isLoading := isLoading st; audios := audios st; theme := theme st;
     isMinimized := isMinimized st; error := error st;
     notification := notification st;
     langNotification := langNotification st;
     sendFeedback := sendFeedback st; detectedLang := detectedLang st;
     showLangIndicator := x; isPlaying := isPlaying st;
     audioFile := audioFile st; detectedVisemes := detectedVisemes st;
     prevViseme := prevViseme st; localStorage := localStorage st |}.

Definition set_isPlaying (x : bool) (st : State) : State :=
  {| message := message st; messages := messages st;
     isLoading := isLoading st; audios := audios st; theme := theme st;
     isMinimized := isMinimized st; error := error st;
     notification := notification st;
     langNotification := langNotification st;
     sendFeedback := sendFeedback st; detectedLang := detectedLang st;
     showLangIndicator := showLangIndicator st; isPlaying := x;
     audioFile := audioFile st; detectedVisemes := detectedVisemes st;
     prevViseme := prevViseme st; localStorage := localStorage st |}.

Definition set_audioFile (x : jsstring) (st : State) : State :=
  {| message := message st; messages := messages st;
     isLoading := isLoading st; audios := audios st; theme := theme st;
     isMinimized := isMinimized st; error := error st;
     notification := notification st;
     langNotification := langNotification st;
     sendFeedback := sendFeedback st; detectedLang := detectedLang st;
     showLangIndicator := showLangIndicator st; isPlaying := isPlaying st;
     audioFile := x; detectedVisemes := detectedVisemes st;
     prevViseme := prevViseme st; localStorage := localStorage st |}.

Definition set_detectedVisemes (x : list jsstring) (st : State) : State :=
  {| message := message st; messages := messages st;
     isLoading := isLoading st; audios := audios st; theme := theme st;
     isMinimized := isMinimized st; error := error st;
     notification := notification st;
     langNotification := langNotification st;
     sendFeedback := sendFeedback st; detectedLang := detectedLang st;
     showLangIndicator := showLangIndicator st; isPlaying := isPlaying st;
     audioFile := audioFile st; detectedVisemes := x;
     prevViseme := prevViseme st; localStorage := localStorage st |}.

Definition set_prevViseme (x : option jsstring) (st : State) : State :=
  {| message := message st; messages := messages st;
     isLoading := isLoading st; audios := audios st; theme := theme st;
     isMinimized := isMinimized st; error := error st;
     notification := notification st;
     langNotification := langNotification st;
     sendFeedback := sendFeedback st; detectedLang := detectedLang st;
     showLangIndicator := showLangIndicator st; isPlaying := isPlaying st;
     audioFile := audioFile st; detectedVisemes := detectedVisemes st;
     prevViseme := x; localStorage := localStorage st |}.

Definition set_localStorage (x : gmap jsstring (list Message)) (st : State) : State :=
  {| message := message st; messages := messages st;
     isLoading := isLoading st; audios := audios st; theme := theme st;
     isMinimized := isMinimized st; error := error st;
     notification := notification st;
     langNotification := langNotification st;
     sendFeedback := sendFeedback st; detectedLang := detectedLang st;
     showLangIndicator := showLangIndicator st; isPlaying := isPlaying st;
     audioFile := audioFile st; detectedVisemes := detectedVisemes st;
     prevViseme := prevViseme st; localStorage := x |}.

End Update.
Export Update.

Definition chatMessages : jsstring := js "chatMessages".

(** The state of a freshly mounted component, over the given storage. *)
Definition initial_state (storage : gmap jsstring (list Message)) : State :=
  {| message := JStr [];
     messages := default [] (storage !! chatMessages);
     isLoading := false; audios := []; theme := js "neon"; isMinimized := false;
     error := JNull; notification := JNull; langNotification := JNull;
     sendFeedback := false; detectedLang := JStr (js "en");
     showLangIndicator := false; isPlaying := false; audioFile := [];
     detectedVisemes := []; prevViseme := None; localStorage := storage |}.

(** ** Effects *)

Inductive Service : Type := ChatApi | TtsApi | SttApi.

(** A timer callback.  [CbSend r] is the closure [() => handleSendMessage
    (fakeEvent)] created during render [r]: it runs the [handleSendMessage]
    of that render, with the values that render captured. *)
Inductive Callback : Type :=
| CbSendFeedbackOff
| CbClearNotification
| CbHideLangIndicator
| CbSend (r : State).

(** What a handler does to the outside, in program order.  A state setter
    called with a value is [Set...]; [AppendMessage], [AppendViseme] and
    [CycleTheme] are the functional updates, applied to the state current
    when they are processed.  Console output and scrolling are left out. *)
Inductive Effect : Type :=
| PreventDefault
| SetMessage (v : JsVal)
| SetMessages (ms : list Message)
| AppendMessage (m : Message)
| SetIsLoading (b : bool)
| CycleTheme
| SetIsMinimized (b : bool)
| SetError (v : JsVal)
| SetNotification (v : JsVal)
| SetLangNotification (v : JsVal)
| SetSendFeedback (b : bool)
| SetDetectedLang (v : JsVal)
| SetShowLangIndicator (b : bool)
| SetIsPlaying (b : bool)
| SetAudioFile (path : jsstring)
| AppendViseme (v : jsstring)
| SetPrevViseme (v : jsstring)
| StorageSetItem (key : jsstring) (ms : list Message)
| StorageRemoveItem (key : jsstring)
| HttpPost (svc : Service) (body : JsVal)
| SetTimeout (cb : Callback) (ms : Z)
| RequestAnimationFrame
| ProcessAudio
| AudioSetSrc (src : jsstring)
| ConnectAudio
| AudioPlay
| AudioPause.

(** [prev === "dark" ? "light" : prev === "light" ? "neon" : "dark"] *)
Definition next_theme (prev : jsstring) : jsstring :=
  if bool_decide (prev = js "dark") then js "light"
  else if bool_decide (prev = js "light") then js "neon"
  else js "dark".

Definition apply_effect (st : State) (e : Effect) : State :=
  match e with
  | SetMessage v => set_message v st
  | SetMessages ms => set_messages ms st
  | AppendMessage m => set_messages (messages st ++ [m]) st
  | SetIsLoading b => set_isLoading b st
  | CycleTheme => set_theme (next_theme (theme st)) st
  | SetIsMinimized b => set_isMinimized b st
  | SetError v => set_error v st
  | SetNotification v => set_notification v st
  | SetLangNotification v => set_langNotification v st
  | SetSendFeedback b => set_sendFeedback b st
  | SetDetectedLang v => set_detectedLang v st
  | SetShowLangIndicator b => set_showLangIndicator b st
  | SetIsPlaying b => set_isPlaying b st
  | SetAudioFile p => set_audioFile p st
  | AppendViseme v => set_detectedVisemes (detectedVisemes st ++ [v]) st
  | SetPrevViseme v => set_prevViseme (Some v) st
  | StorageSetItem k ms => set_localStorage (<[k := ms]> (localStorage st)) st
  | StorageRemoveItem k => set_localStorage (delete k (localStorage st)) st
  | PreventDefault | HttpPost _ _ | SetTimeout _ _ | RequestAnimationFrame
  | ProcessAudio | AudioSetSrc _ | ConnectAudio | AudioPlay | AudioPause => st
  end.

(** The state once a sequence of effects has been applied, in order. *)
Definition run (st : State) (trace : list Effect) : State :=
  foldl apply_effect st trace.

(** ** Handlers as traced computations that may throw *)

Module Handler.

(** The effects performed so far, and either the thrown value or the
    result. *)
Definition M (A : Type) : Type := list Effect * (JsVal + A).

Definition ret {A} (a : A) : M A := ([], inr a).

Definition throw {A} (e : JsVal) : M A := ([], inl e).

Definition emit (es : list Effect) : M unit := (es, inr tt).

Definition bind {A B} (m : M A) (k : A -> M B) : M B :=
  match m with
  | (t, inl e) => (t, inl e)
  | (t, inr a) => let (t', r) := k a in (t ++ t', r)
  end.

(** [try { m } catch (err) { h err }] *)
Definition try_catch {A} (m : M A) (h : JsVal -> M A) : M A :=
  match m with
  | (t, inl e) => let (t', r) := h e in (t ++ t', r)
  | (t, inr a) => (t, inr a)
  end.

(** [try { m } finally { f }] *)
Definition finally {A} (m : M A) (f : M unit) : M A :=
  let (t, r) := m in
  let (t', r') := f in
  (t ++ t', match r' with inl e => inl e | inr _ => r end).

Definition trace {A} (m : M A) : list Effect := fst m.
Definition outcome {A} (m : M A) : JsVal + A := snd m.

End Handler.
Export Handler.

Notation "'do' x <- m ; k" := (bind m (fun x => k))
  (at level 10, x name, m at level 100, k at level 200).
Notation "m ;;; k" := (bind m (fun _ => k))
  (at level 100, k at level 200, right associativity).

(** [v.k] as a statement: reading a property of [null] or [undefined]
    throws a TypeError (whose wording is the engine's). *)
Definition get_prop (v : JsVal) (k : jsstring) : M JsVal :=
  if nullish v
  then throw (js_error "TypeError"
                (js "Cannot read properties of " ++ to_string v))
  else ret (prop v k).

(** The TypeError of a conversion (its wording is the engine's). *)
Definition conversion_error : JsVal :=
  js_error "TypeError" (js "Cannot convert object to primitive value").

(** ToString as a step of a computation: a template literal converts
    each of its values this way, in order. *)
Definition ToString (v : JsVal) : M jsstring :=
  match converted v with
  | Some s => ret s
  | None => throw conversion_error
  end.

(** The conversion of [v] to a string does not throw. *)
Definition converts (v : JsVal) : bool :=
  match converted v with Some _ => true | None => false end.

(** [v?.k] *)
Definition opt_prop (v : JsVal) (k : jsstring) : JsVal := prop v k.

(** [v === s] for a string [s] *)
Definition strict_eq_str (v : JsVal) (s : jsstring) : bool :=
  match v with JStr s' => bool_decide (s' = s) | _ => false end.

(** A parameter default: [undefined] selects it. *)
Definition default_arg (v d : JsVal) : JsVal :=
  match v with JUndefined => d | _ => v end.

(** ** The outside world *)

(** An error axios rejects with: [response] is present when the server
    answered (with a status outside 2xx), and carries the parsed body. *)
Record AxiosError : Type := { ae_message : jsstring; ae_response : option JsVal }.

Inductive HttpResult : Type :=
| HttpOk (data : JsVal)
| HttpFail (e : AxiosError).

(** How each remote service answers a request body, and the clock. *)
Record Env : Type := {
  remote : Service -> JsVal -> HttpResult;
  Date_now : Z
}.

Module axios.

Definition error_object (e : AxiosError) : JsVal :=
  JObj ((js "name", JStr (js "AxiosError")) :: (js "message", JStr (ae_message e))
        :: match ae_response e with
           | Some d => [(js "response", JObj [(js "data", d)])]
           | None => []
           end).

(** [await axios.post(url, body)]: the request goes out; the call yields
    the response object or throws. *)
Definition post (env : Env) (svc : Service) (body : JsVal) : M JsVal :=
  emit [HttpPost svc body] ;;;
  match remote env svc body with
  | HttpOk d => ret (JObj [(js "data", d)])
  | HttpFail e => throw (error_object e)
  end.

End axios.

(** ** Remote service clients *)

(** [{ error: true, message }] *)
Definition sentinel (msg : JsVal) : JsVal :=
  JObj [(js "error", JBool true); (js "message", msg)].

Module apiClient.

Definition generateResponse (env : Env) (payload : JsVal) : M JsVal :=
  try_catch
    (do response <- axios.post env ChatApi payload;
     get_prop response (js "data"))
    (fun error =>
       do response <- get_prop error (js "response");
       let detail := opt_prop (opt_prop response (js "data")) (js "detail") in
       if truthy detail then ret (sentinel detail)
       else do message <- get_prop error (js "message"); ret (sentinel message)).

End apiClient.

Module ttsService.

(** [{ text, audio_id: audioId, lang: language, speaker }] *)
Definition request_body (text audioId language speaker : JsVal) : JsVal :=
  JObj [(js "text", text); (js "audio_id", audioId);
        (js "lang", language); (js "speaker", speaker)].

(** [`Génération TTS: ${text} (${language}) -> ${audioId}`], the line
    [generateAudio] logs first. *)
Definition log_line (text language audioId : JsVal) : M jsstring :=
  do text <- ToString text;
  do language <- ToString language;
  do audioId <- ToString audioId;
  ret (js "Génération TTS: " ++ text ++ js " (" ++ language ++ js ") -> "
       ++ audioId).

Definition generateAudio (env : Env) (text audioId language speaker : JsVal)
  : M JsVal :=
  let language := default_arg language (JStr (js "en")) in
  let speaker := default_arg speaker (JStr (js "female-pt-4")) in
  try_catch
    (do line <- log_line text language audioId;
     do response <-
        axios.post env TtsApi (request_body text audioId language speaker);
     get_prop response (js "data"))
    (fun error =>
       do response <- get_prop error (js "response");
       let detail := opt_prop (opt_prop response (js "data")) (js "detail") in
       if truthy detail then ret (sentinel detail)
       else do message <- get_prop error (js "message"); ret (sentinel message)).

End ttsService.

Module sttService.

(** [audioFile instanceof File] *)
Definition instanceof_File (v : JsVal) : bool :=
  match v with JFile _ => true | _ => false end.

(** The form data: the file, and the model size as the string
    [FormData.append] makes of it. *)
Definition form_data (audioFile modelSize : JsVal) : JsVal :=
  JObj [(js "file", audioFile); (js "model_size", JStr (to_string modelSize))].

Definition generateText (env : Env) (audioFile modelSize : JsVal) : M JsVal :=
  let modelSize := default_arg modelSize (JStr (js "base")) in
  try_catch
    ((if instanceof_File audioFile then ret tt
      else throw (js_error "Error"
                    (js "L'argument audioFile doit être un objet File"))) ;;;
     let formData := form_data audioFile modelSize in
     do response <- axios.post env SttApi formData;
     do data <- get_prop response (js "data");
     do text <- get_prop data (js "text");
     do lang <- get_prop data (js "lang");
     do confidence <- get_prop data (js "confidence");
     ret (JObj [(js "text", text); (js "lang", lang);
                (js "confidence", confidence)]))
    (fun err =>
       do response <- get_prop err (js "response");
       ret (sentinel
              (js_or (opt_prop (opt_prop response (js "data")) (js "detail"))
                     (JStr (js "Échec lors de la transcription de l'audio"))))).

End sttService.

(** ** Language detection *)

Record Language : Type := { value : jsstring; label : jsstring; gtts : jsstring }.

Definition LANGUAGES : list Language :=
  [ {| value := js "en"; label := js "English"; gtts := js "en" |};
    {| value := js "fr"; label := js "Français"; gtts := js "fr" |};
    {| value := js "ar"; label := js "العربية"; gtts := js "ar" |} ].

(** [LANGUAGES.find(l => l.value === lang)?.label || lang] *)
Definition getLangLabel (lang : JsVal) : JsVal :=
  js_or (match find (fun l => strict_eq_str lang (value l)) LANGUAGES with
         | Some l => JStr (label l)
         | None => JUndefined
         end) lang.

(** The table inside [detectLanguage], key for key. *)
Definition langMapping : JsVal :=
  JObj (map (fun kv => (js (fst kv), JStr (js (snd kv))))
    [("eng", "en"); ("fra", "fr"); ("franc ", "fr"); ("ara", "ar");
     ("arb", "ar"); ("arz", "ar"); ("acm", "ar"); ("afb", "ar");
     ("ajp", "ar"); ("apc", "ar"); ("apd", "ar"); ("ary", "ar");
     ("arz", "ar"); ("auz", "ar"); ("avl", "ar"); ("ayh", "ar");
     ("ayl", "ar"); ("ayn", "ar"); ("ayp", "ar"); ("bbz", "ar");
     ("pga", "ar"); ("shu", "ar"); ("ssh", "ar")]%string).

Section Detector.

(** [franc] of [franc-min]: the code it returns for a text, or [None] when
    it throws. *)
Variable franc : jsstring -> option jsstring.

Definition detectLanguage (text : jsstring) : JsVal :=
  if negb (truthy (JStr text)) || (length (trim text) <? 3)%nat
  then JStr (js "en")
  else
    match franc (trim text) with
    | Some detected =>
      let mappedLang := js_or (prop langMapping detected) (JStr detected) in
      if existsb (fun l => strict_eq_str mappedLang (value l)) LANGUAGES
      then mappedLang
      else JStr (js "en")
    | None => JStr (js "en")
    end.

End Detector.

(** ** The chat component *)

(** [v.trim()] for whatever value [v] the input state holds. *)
Definition String_trim (v : JsVal) : M jsstring :=
  match v with
  | JStr s => ret (trim s)
  | JUndefined | JNull =>
    throw (js_error "TypeError" (js "Cannot read properties of " ++ to_string v))
  | _ => throw (js_error "TypeError" (js "message.trim is not a function"))
  end.

(** The functions of [Object.prototype], applied to the plain object [this]. *)
Definition call_builtin (f : jsstring) (this : JsVal) (args : list JsVal) : JsVal :=
  let arg := default JUndefined (head args) in
  if bool_decide (f = js "toString") || bool_decide (f = js "toLocaleString")
  then JStr (to_string this)
  else if bool_decide (f = js "valueOf") then this
  else if bool_decide (f = js "hasOwnProperty")
          || bool_decide (f = js "propertyIsEnumerable")
  then JBool (bool_decide (to_string arg ∈ own_keys this))
  else if bool_decide (f = js "isPrototypeOf") then JBool false
  else if bool_decide (f = js "constructor")
  then (if nullish arg then JObj [] else arg)
  else JUndefined.

(** [obj.name(...args)]: the member is read, then called; calling a value
    that is not a function throws a TypeError. *)
Definition call_method (obj : JsVal) (name : jsstring) (args : list JsVal)
  : M JsVal :=
  do f <- get_prop obj name;
  match f with
  | JFun g => ret (call_builtin g obj args)
  | _ => throw (js_error "TypeError" (name ++ js " is not a function"))
  end.

(** [l.slice(start)] *)
Definition slice_from {A} (start : Z) (l : list A) : list A :=
  let len := Z.of_nat (length l) in
  let k := if (start <? 0)%Z then Z.max (len + start) 0 else Z.min start len in
  drop (Z.to_nat k) l.

Definition history_entry (msg : Message) : HistoryEntry :=
  {| role := if bool_decide (sender msg = js "user")
             then js "user" else js "assistant";
     content := text msg |}.

(** [conversationHistory] of [handleSendMessage], once the current message
    has been pushed. *)
Definition conversationHistory (r : State) : list HistoryEntry :=
  map history_entry (slice_from (-5) (messages r))
  ++ [ {| role := js "user"; content := message r |} ].

Definition entry_object (e : HistoryEntry) : JsVal :=
  JObj [(js "role", JStr (role e)); (js "content", content e)].

(** The body of the chat request. *)
Definition chat_payload (r : State) : JsVal :=
  JObj [(js "history", JArr (map entry_object (conversationHistory r)));
        (js "detectedLanguage", detectedLang r)].

(** [`audio-${Date.now()}`] *)
Definition newAudioId (env : Env) : JsVal :=
  JStr (js "audio-" ++ to_string (JNum (Date_now env))).

(** [`/audios/${result.audioId}.mp3`], for a [result] that is neither
    [null] nor [undefined]. *)
Definition audio_path (result : JsVal) : M jsstring :=
  do audioId <- ToString (prop result (js "audioId"));
  ret (js "/audios/" ++ audioId ++ js ".mp3").

Definition generateAudioAndLipsync (env : Env)
    (text message : JsVal) (audios : list JsVal) (detectedLang : JsVal)
  : M JsVal :=
  emit [SetNotification
          (JStr (js "Génération audio et synchronisation labiale..."))] ;;;
  (* detectedLang || LANGUAGES.find(l => l.value === lang)?.gtts || "en":
     no [lang] is in scope, so the callback of [find] throws as soon as the
     right operand is evaluated *)
  do gttsLang <-
     (if truthy detectedLang then ret detectedLang
      else throw (js_error "ReferenceError" (js "lang is not defined")));
  try_catch
    (do result <- ttsService.generateAudio env text (newAudioId env) gttsLang JUndefined;
     do result_error <- get_prop result (js "error");
     if truthy result_error then
       do result_message <- get_prop result (js "message");
       emit [SetError (js_or result_message
                         (JStr (js "Erreur lors de la génération audio")));
             SetNotification JNull] ;;;
       ret JNull
     else
       do path <- audio_path result;
       emit [SetAudioFile path] ;;;
       get_prop result (js "audioPath"))
    (fun error =>
       emit [SetError (JStr (js "Erreur lors de la génération audio"));
             SetNotification JNull] ;;;
       ret JNull).

(** [handleSendMessage] as created by render [r]: [message], [messages],
    [audios] and [detectedLang] are that render's. *)
Definition handleSendMessage (r : State) (env : Env) : M unit :=
  emit [PreventDefault] ;;;
  do trimmed <- String_trim (message r);
  if negb (truthy (JStr trimmed)) then ret tt
  else
    let userMessage := {| text := message r; sender := js "user" |} in
    emit [AppendMessage userMessage;
          SetMessage (JStr []);
          SetSendFeedback true;
          SetTimeout CbSendFeedbackOff 300;
          SetIsLoading true;
          SetNotification (JStr (js "Génération de la réponse..."))] ;;;
    finally
      (try_catch
         (do response <- apiClient.generateResponse env (chat_payload r);
          do response_text <- get_prop response (js "text");
          do audioPath <-
             generateAudioAndLipsync env response_text (message r) (audios r)
                                     (detectedLang r);
          if negb (truthy audioPath) then
            emit [SetError (JStr (js "Erreur lors de la génération de l'audio"))]
          else
            let avatarMessage := {| text := response_text; sender := js "avatar" |} in
            emit [AppendMessage avatarMessage; SetNotification JNull])
         (fun err =>
            do err_message <- get_prop err (js "message");
            emit [SetError
                    (js_or err_message
                       (JStr (js "Erreur lors de la génération de la réponse ou de l'audio.")));
                  SetNotification JNull]))
      (emit [SetIsLoading false]).

Definition handleResetChat : M unit :=
  emit [SetMessages [];
        StorageRemoveItem chatMessages;
        SetDetectedLang (JStr (js "en"));
        SetShowLangIndicator false;
        SetNotification (JStr (js "Conversation réinitialisée !"));
        SetTimeout CbClearNotification 2000].

(** [handleAudioTranscription] as created by render [r]; the timer it
    arms calls the [handleSendMessage] of that same render. *)
Definition handleAudioTranscription (r : State) (transcriptionResult : JsVal)
  : M unit :=
  match transcriptionResult with
  | JStr _ =>
    emit [SetMessage transcriptionResult; SetTimeout (CbSend r) 100]
  | _ =>
    let source := js_or transcriptionResult (JObj []) in
    let text := prop source (js "text") in
    let detectedLang := prop source (js "lang") in
    (if truthy detectedLang then
       let langMapping :=
         JObj [(js "en", JStr (js "en")); (js "fr", JStr (js "fr"));
               (js "ar", JStr (js "ar")); (js "ar-MA", JStr (js "ar"))] in
       do mappedLang <- call_method langMapping (js "get") [detectedLang; detectedLang];
       emit [SetDetectedLang mappedLang;
             SetLangNotification
               (JStr (js "Langue détectée : " ++ to_string (getLangLabel mappedLang)))]
     else ret tt) ;;;
    emit [SetMessage (js_or text (JStr [])); SetTimeout (CbSend r) 100]
  end.

Definition toggleTheme : M unit := emit [CycleTheme].

Definition toggleMinimize (r : State) : M unit :=
  emit [SetIsMinimized (negb (isMinimized r))].

Definition toggleAudio (r : State) : M unit :=
  emit [if isPlaying r then AudioPause else AudioPlay;
        SetIsPlaying (negb (isPlaying r))].

(** The listener of the audio element's [ended] event. *)
Definition handleAudioEnded : M unit :=
  emit [SetAudioFile []; SetIsPlaying false].

(** The effect on [[audioFile]]. *)
Definition playbackEffect (r : State) : M unit :=
  if negb (truthy (JStr (audioFile r))) then ret tt
  else emit [AudioSetSrc (audioFile r); ConnectAudio; AudioPlay; SetIsPlaying true].

(** Its cleanup, run before the effect runs again when it did not return
    early. *)
Definition playbackCleanup : M unit := emit [AudioPause].

(** The effect on [[messages]]. *)
Definition persistEffect (r : State) : M unit :=
  emit [StorageSetItem chatMessages (messages r)].

(** One animation frame of [analyzeAudio]; [viseme] is what
    [lipsyncManager.viseme] holds after [processAudio], and [st] is the
    live state, whose [prevViseme] cell is read. *)
Definition analyzeAudio (st : State) (viseme : jsstring) : M unit :=
  emit [RequestAnimationFrame; ProcessAudio] ;;;
  if bool_decide (Some viseme <> prevViseme st)
  then emit [AppendViseme viseme; SetPrevViseme viseme]
  else ret tt.

Section LanguageEffect.

Variable franc : jsstring -> option jsstring.

(** The effect on [[message, detectedLang]]. *)
Definition languageEffect (r : State) : M unit :=
  do trimmed <- String_trim (message r);
  if (3 <=? length trimmed)%nat then
    let lang :=
      detectLanguage franc (match message r with JStr s => s | _ => [] end) in
    if negb (strict_eq_str (detectedLang r) (to_string lang)) then
      emit [SetDetectedLang lang;
            SetShowLangIndicator true;
            SetLangNotification
              (JStr (js "Langue détectée : " ++ to_string (getLangLabel lang)));
            SetTimeout CbHideLangIndicator 3000]
    else ret tt
  else ret tt.

End LanguageEffect.

(** A timer fires: its callback runs. *)
Definition fire (cb : Callback) (env : Env) : M unit :=
  match cb with
  | CbSendFeedbackOff => emit [SetSendFeedback false]
  | CbClearNotification => emit [SetNotification JNull]
  | CbHideLangIndicator => emit [SetShowLangIndicator false]
  | CbSend r => handleSendMessage r env
  end.

(** ** Sessions *)

(** The effects of everything but the per-frame sampler: the handlers, the
    render effects, the timer callbacks and the notification auto-reset. *)
Inductive Emits : Effect -> Prop :=
| EmitsSend r env e : e ∈ trace (handleSendMessage r env) -> Emits e
| EmitsReset e : e ∈ trace handleResetChat -> Emits e
| EmitsTranscription r v e : e ∈ trace (handleAudioTranscription r v) -> Emits e
| EmitsToggleTheme e : e ∈ trace toggleTheme -> Emits e
| EmitsToggleMinimize r e : e ∈ trace (toggleMinimize r) -> Emits e
| EmitsToggleAudio r e : e ∈ trace (toggleAudio r) -> Emits e
| EmitsAudioEnded e : e ∈ trace handleAudioEnded -> Emits e
| EmitsPlayback r e : e ∈ trace (playbackEffect r) -> Emits e
| EmitsPlaybackCleanup e : e ∈ trace playbackCleanup -> Emits e
| EmitsPersist r e : e ∈ trace (persistEffect r) -> Emits e
| EmitsLanguage franc r e : e ∈ trace (languageEffect franc r) -> Emits e
| EmitsFire cb env e : e ∈ trace (fire cb env) -> Emits e
| EmitsInput v : Emits (SetMessage (JStr v))
| EmitsClearError : Emits (SetError JNull)
| EmitsClearNotification : Emits (SetNotification JNull)
| EmitsClearLangNotification : Emits (SetLangNotification JNull).

(** One step of a session: an animation frame runs [analyzeAudio] on the
    sampled viseme, or something else performs its next effect.  Turns are
    not atomic: the effects of a pending [handleSendMessage] interleave
    with frames and with other handlers. *)
Inductive Step : State -> State -> Prop :=
| StepFrame st viseme : Step st (run st (trace (analyzeAudio st viseme)))
| StepEffect st e : Emits e -> Step st (apply_effect st e).

Definition Reachable (st : State) : Prop :=
  exists storage, rtc Step (initial_state storage) st.

(** ** Observations on traces *)

Definition is_avatar_append (e : Effect) : bool :=
  match e with
  | AppendMessage m => bool_decide (sender m = js "avatar")
  | _ => false
  end.

Definition is_message_update (e : Effect) : bool :=
  match e with AppendMessage _ | SetMessages _ => true | _ => false end.

Definition is_audio_update (e : Effect) : bool :=
  match e with SetAudioFile _ => true | _ => false end.

(** An error notification shows when [error] is set to a truthy value. *)
Definition is_error_notification (e : Effect) : bool :=
  match e with SetError v => truthy v | _ => false end.

Definition is_network_call (e : Effect) : bool :=
  match e with HttpPost _ _ => true | _ => false end.

Definition is_viseme_effect (e : Effect) : bool :=
  match e with AppendViseme _ | SetPrevViseme _ => true | _ => false end.

(** Some effect satisfying [P] comes strictly before one satisfying [Q]. *)
Fixpoint precedes (P Q : Effect -> bool) (t : list Effect) : bool :=
  match t with
  | [] => false
  | e :: rest => (P e && existsb Q rest) || precedes P Q rest
  end.

(** No two neighbouring entries are equal. *)
Definition consecutive_distinct (l : list jsstring) : Prop :=
  forall i a b, l !! i = Some a -> l !! S i = Some b -> a <> b.

(** Every code unit is white space (this includes the empty string). *)
Definition blank (s : jsstring) : bool := forallb is_js_whitespace s.

Definition is_chat_request (e : Effect) : bool :=
  match e with HttpPost ChatApi _ => true | _ => false end.

(** How many effects of a trace satisfy [P]. *)
Definition count (P : Effect -> bool) (t : list Effect) : nat :=
  length (List.filter P t).

(** Every effect of a computation satisfies [P]. *)
Definition only (P : Effect -> Prop) {A} (m : M A) : Prop := Forall P (trace m).

(** The message a client puts in its sentinel when axios rejects with [e]:
    [e.response?.data?.detail || e.message]. *)
Definition failure_message (e : AxiosError) : JsVal :=
  js_or (match ae_response e with
         | Some d => prop d (js "detail")
         | None => JUndefined
         end)
        (JStr (ae_message e)).

(** The speaker [generateAudio] falls back to. *)
Definition speaker_default : JsVal := JStr (js "female-pt-4").

(** The first effect of [generateAudioAndLipsync]. *)
Definition audio_notice : Effect :=
  SetNotification (JStr (js "Génération audio et synchronisation labiale...")).

(** What [handleSendMessage] does, for an input that is not blank, up to
    and including the chat request. *)
Definition turn_start (r : State) : list Effect :=
  [PreventDefault;
   AppendMessage {| text := message r; sender := js "user" |};
   SetMessage (JStr []);
   SetSendFeedback true;
   SetTimeout CbSendFeedbackOff 300;
   SetIsLoading true;
   SetNotification (JStr (js "Génération de la réponse..."));
   HttpPost ChatApi (chat_payload r)].

(** The body of the speech request of a turn whose chat call returned
    [response]. *)
Definition turn_tts_request (r : State) (env : Env) (response : JsVal) : JsVal :=
  ttsService.request_body (prop response (js "text")) (newAudioId env)
                          (detectedLang r) speaker_default.

(** [typeof v === "string"] *)
Definition is_string (v : JsVal) : bool :=
  match v with JStr _ => true | _ => false end.

(** Effects that leave the viseme log and the [prevViseme] cell alone. *)
Abbreviation quiet := (fun e => is_viseme_effect e = false).

(** What the sampler maintains: the log has no equal neighbours and
    [prevViseme] holds its last entry. *)
Definition log_invariant (st : State) : Prop :=
  consecutive_distinct (detectedVisemes st)
  /\ last (detectedVisemes st) = prevViseme st.



(** ** Sample inputs *)

Module Sample.

(** A fresh component whose input box holds [txt]. *)
Definition typed (txt : string) : State :=
  set_message (JStr (js txt)) (initial_state ∅).

Definition hi_there : State := typed "Hi there".

Definition reply : JsVal := JObj [(js "text", JStr (js "Hello"))].

Definition rendered : JsVal :=
  JObj [(js "audioId", JStr (js "audio-1"));
        (js "audioPath", JStr (js "/audios/audio-1.mp3"))].

Definition transcript : JsVal :=
  JObj [(js "text", JStr (js "bonjour")); (js "lang", JStr (js "fr"));
        (js "confidence", JNum 1)].

Definition network_error : AxiosError :=
  {| ae_message := js "Network Error"; ae_response := None |}.

(** All three services answer. *)
Definition all_up : Env :=
  {| remote := fun svc _ =>
       match svc with
       | ChatApi => HttpOk reply
       | TtsApi => HttpOk rendered
       | SttApi => HttpOk transcript
       end;
     Date_now := 1700000000000 |}.

(** The chat service is unreachable; the speech service answers. *)
Definition chat_down : Env :=
  {| remote := fun svc _ =>
       match svc with
       | ChatApi => HttpFail network_error
       | TtsApi => HttpOk rendered
       | SttApi => HttpOk transcript
       end;
     Date_now := 1700000000000 |}.

Definition rendered_without_path : JsVal :=
  JObj [(js "audioId", JStr (js "audio-1"))].

(** The speech service answers without an [audioPath]. *)
Definition tts_no_path : Env :=
  {| remote := fun svc _ =>
       match svc with
       | ChatApi => HttpOk reply
       | TtsApi => HttpOk rendered_without_path
       | SttApi => HttpOk transcript
       end;
     Date_now := 1700000000000 |}.

(** The speech service answers with the body [null]. *)
Definition tts_null : Env :=
  {| remote := fun svc _ =>
       match svc with
       | ChatApi => HttpOk reply
       | TtsApi => HttpOk JNull
       | SttApi => HttpOk transcript
       end;
     Date_now := 1700000000000 |}.

(** [{ "audioId": { "toString": 0 } }] *)
Definition rendered_odd_id : JsVal :=
  JObj [(js "audioId", JObj [(js "toString", JNum 0)])].

(** The speech service answers with that body. *)
Definition tts_odd_id : Env :=
  {| remote := fun svc _ =>
       match svc with
       | ChatApi => HttpOk reply
       | TtsApi => HttpOk rendered_odd_id
       | SttApi => HttpOk transcript
       end;
     Date_now := 1700000000000 |}.


Definition user_says (txt : string) : Message :=
  {| text := JStr (js txt); sender := js "user" |}.

Definition avatar_says (txt : string) : Message :=
  {| text := JStr (js txt); sender := js "avatar" |}.

(** Seven earlier messages, and "Hi there" typed. *)
Definition long_conversation : State :=
  set_messages
    [user_says "1"; avatar_says "2"; user_says "3"; avatar_says "4";
     user_says "5"; avatar_says "6"; user_says "7"]
    (typed "Hi there").

(** Three animation frames after mounting: silence, silence, "aa". *)
Definition three_frames : State :=
  let st1 := run (initial_state ∅)
                 (trace (analyzeAudio (initial_state ∅) (js "viseme_sil"))) in
  let st2 := run st1 (trace (analyzeAudio st1 (js "viseme_sil"))) in
  run st2 (trace (analyzeAudio st2 (js "viseme_aa"))).

End Sample.

(** ** More of the components *)

(** A reference to an identifier that no scope binds. *)
Definition unbound {A} (name : string) : M A :=
  throw (js_error "ReferenceError" (js name ++ js " is not defined")).

(** The tags of [LANGUAGES], as values. *)
Definition supported_tags : list JsVal :=
  [JStr (js "en"); JStr (js "fr"); JStr (js "ar")].

(** The themes [toggleTheme] moves between. *)
Definition themes : list jsstring := [js "neon"; js "dark"; js "light"].

(** [handleInputKeyDown] as created by render [r]. *)
Definition handleInputKeyDown (r : State) (env : Env) (key : JsVal) : M unit :=
  if strict_eq_str key (js "Enter") then handleSendMessage r env else ret tt.

(** [LANGUAGES.some(l => l.value === v)] *)
Definition is_supported (v : JsVal) : bool :=
  existsb (fun l => strict_eq_str v (value l)) LANGUAGES.

(** The values the audio reference takes: the empty string, or a path
    of the form [audio_path] builds. *)
Inductive AudioReference : jsstring -> Prop :=
| RefNone : AudioReference []
| RefPath id : AudioReference (js "/audios/" ++ id ++ js ".mp3").

(** What every effect of the chat component other than a sampler's obeys:
    [messages] is only ever set to the empty list, the detected language to
    a supported tag, the audio reference to the empty string or to a path
    of the form [audio_path] builds, and storage is touched under
    "chatMessages" only. *)
Definition disciplined (e : Effect) : Prop :=
  match e with
  | SetMessages ms => ms = []
  | SetDetectedLang v => is_supported v = true
  | SetAudioFile p => AudioReference p
  | StorageSetItem k _ | StorageRemoveItem k => k = chatMessages
  | AppendViseme _ | SetPrevViseme _ => False
  | _ => True
  end.

(** The effects between the chat request and the final [setIsLoading
    (false)] of a turn, by the way the turn ends. *)
Inductive TurnEnd (r : State) (env : Env) (response : JsVal) : list Effect -> Prop :=
| EndNoReply err :
    nullish response = true -> truthy err = true ->
    TurnEnd r env response [SetError err; SetNotification JNull]
| EndNoLanguage err :
    nullish response = false -> truthy (detectedLang r) = false ->
    truthy err = true ->
    TurnEnd r env response [audio_notice; SetError err; SetNotification JNull]
| EndSpeechFailed err :
    nullish response = false -> truthy (detectedLang r) = true ->
    truthy err = true ->
    TurnEnd r env response
      [audio_notice; HttpPost TtsApi (turn_tts_request r env response);
       SetError err; SetNotification JNull;
       SetError (JStr (js "Erreur lors de la génération de l'audio"))]
| EndSpeechNotSent err :
    nullish response = false -> truthy (detectedLang r) = true ->
    converted (prop response (js "text")) = None
    \/ converted (detectedLang r) = None ->
    truthy err = true ->
    TurnEnd r env response
      [audio_notice; SetError err; SetNotification JNull;
       SetError (JStr (js "Erreur lors de la génération de l'audio"))]
| EndNoPath result id :
    nullish response = false -> truthy (detectedLang r) = true ->
    remote env TtsApi (turn_tts_request r env response) = HttpOk result ->
    converted (prop result (js "audioId")) = Some id ->
    truthy (prop result (js "audioPath")) = false ->
    TurnEnd r env response
      [audio_notice; HttpPost TtsApi (turn_tts_request r env response);
       SetAudioFile (js "/audios/" ++ id ++ js ".mp3");
       SetError (JStr (js "Erreur lors de la génération de l'audio"))]
| EndSpoken result id :
    nullish response = false -> truthy (detectedLang r) = true ->
    remote env TtsApi (turn_tts_request r env response) = HttpOk result ->
    converted (prop result (js "audioId")) = Some id ->
    truthy (prop result (js "audioPath")) = true ->
    TurnEnd r env response
      [audio_notice; HttpPost TtsApi (turn_tts_request r env response);
       SetAudioFile (js "/audios/" ++ id ++ js ".mp3");
       AppendMessage {| text := prop response (js "text"); sender := js "avatar" |};
       SetNotification JNull].

(** What holds of the cells of every state a session reaches. *)
Definition cells_invariant (st : State) : Prop :=
  is_supported (detectedLang st) = true
  /\ theme st ∈ themes
  /\ AudioReference (audioFile st).

(** ** The language badge ([LanguageIndicator]) *)

Module LanguageIndicator.

(** The table inside its [getLangLabel]. *)
Definition languages : JsVal :=
  JObj [(js "en", JStr (js "English")); (js "fr", JStr (js "Français"));
        (js "ar", JStr (js "العربية"))].

(** [languages[lang] || lang]; the key of the lookup is [lang] as a
    string. *)
Definition getLangLabel (lang : JsVal) : JsVal :=
  js_or (prop languages (to_string lang)) lang.

(** What the component shows. *)
Record Badge : Type := { className : jsstring; title : jsstring; caption : JsVal }.

(** The component: nothing unless [showIndicator]; else the badge. *)
Definition render (detectedLang : JsVal) (showIndicator : bool) (theme : jsstring)
  : option Badge :=
  if negb showIndicator then None
  else Some
    {| className :=
         js "flex items-center gap-1 px-2 py-1 rounded-md text-xs animate-pulse "
         ++ (if bool_decide (theme = js "dark") then js "bg-blue-900 text-blue-200"
             else if bool_decide (theme = js "light")
                  then js "bg-blue-100 text-blue-800"
                  else js "bg-blue-100 text-blue-800");
       title := js "Langue détectée : " ++ to_string (getLangLabel detectedLang);
       caption := getLangLabel detectedLang |}.

End LanguageIndicator.

(** The three labels of [LANGUAGES]. *)
Definition labels : list JsVal :=
  [JStr (js "English"); JStr (js "Français"); JStr (js "العربية")].

(** ** The earlier chat component ([Visualizer]) *)

Module Visualizer.

(** The file does not import [franc]: calling it is a reference to an
    unbound identifier. *)
Definition franc (text : jsstring) : M jsstring := unbound "franc".

(** The table inside its [detectLanguage], key for key. *)
Definition langMapping : JsVal :=
  JObj (map (fun kv => (js (fst kv), JStr (js (snd kv))))
    [("eng", "en"); ("fra", "fr"); ("ara", "ar");
     ("arb", "ar"); ("arz", "ar"); ("acm", "ar"); ("afb", "ar");
     ("ajp", "ar"); ("apc", "ar"); ("apd", "ar"); ("ary", "ar");
     ("arz", "ar"); ("auz", "ar"); ("avl", "ar"); ("ayh", "ar");
     ("ayl", "ar"); ("ayn", "ar"); ("ayp", "ar"); ("bbz", "ar");
     ("pga", "ar"); ("shu", "ar"); ("ssh", "ar")]%string).

Definition detectLanguage (text : jsstring) : M JsVal :=
  if negb (truthy (JStr text)) || (length (trim text) <? 3)%nat
  then ret (JStr (js "en"))
  else
    try_catch
      (do detected <- franc (trim text);
       let mappedLang := js_or (prop langMapping detected) (JStr detected) in
       if existsb (fun l => strict_eq_str mappedLang (value l)) LANGUAGES
       then ret mappedLang
       else ret (JStr (js "en")))
      (fun error => ret (JStr (js "en"))).

(** The component has the cells of [ChatInterface] but for [detectedLang]
    and [showLangIndicator], and a cell [lang] of its own: its handlers
    take the render [r] for the shared cells and [lang] beside it. *)
Definition generateAudioAndLipsync (env : Env) (lang : JsVal)
    (text message : JsVal) (audios : list JsVal) (detectedLang : JsVal)
  : M JsVal :=
  emit [SetNotification
          (JStr (js "Génération audio et synchronisation labiale..."))] ;;;
  let gttsLang :=
    js_or detectedLang
      (js_or (match find (fun l => strict_eq_str lang (value l)) LANGUAGES with
              | Some l => JStr (gtts l)
              | None => JUndefined
              end)
             (JStr (js "en"))) in
  try_catch
    (do result <- ttsService.generateAudio env text (newAudioId env) gttsLang JUndefined;
     do result_error <- get_prop result (js "error");
     if truthy result_error then
       do result_message <- get_prop result (js "message");
       emit [SetError (js_or result_message
                         (JStr (js "Erreur lors de la génération audio")));
             SetNotification JNull] ;;;
       ret JNull
     else
       do path <- audio_path result;
       emit [SetAudioFile path] ;;;
       get_prop result (js "audioPath"))
    (fun error =>
       emit [SetError (JStr (js "Erreur lors de la génération audio"));
             SetNotification JNull] ;;;
       ret JNull).

(** Reading a [const] of the enclosing block before its declaration has
    run. *)
Definition before_initialization {A} (name : string) : M A :=
  throw (js_error "ReferenceError"
           (js "Cannot access '" ++ js name ++ js "' before initialization")).

(** [handleSendMessage]: the argument of [generateResponse] reads
    [detectedLang], which the [try] block declares three statements
    later ([const detectedLang = lang]). *)
Definition handleSendMessage (r : State) (lang : JsVal) (env : Env) : M unit :=
  emit [PreventDefault] ;;;
  do trimmed <- String_trim (message r);
  if negb (truthy (JStr trimmed)) then ret tt
  else
    let userMessage := {| text := message r; sender := js "user" |} in
    emit [AppendMessage userMessage;
          SetMessage (JStr []);
          SetSendFeedback true;
          SetTimeout CbSendFeedbackOff 300;
          SetIsLoading true;
          SetNotification (JStr (js "Génération de la réponse..."))] ;;;
    finally
      (try_catch
         (let history := JArr (map entry_object (conversationHistory r)) in
          do detectedLanguage <- before_initialization "detectedLang";
          do response <-
             apiClient.generateResponse env
               (JObj [(js "history", history);
                      (js "detectedLanguage", detectedLanguage)]);
          let detectedLang := lang in
          do response_text <- get_prop response (js "text");
          do audioPath <-
             generateAudioAndLipsync env lang response_text (message r) (audios r)
                                     detectedLang;
          if negb (truthy audioPath) then
            emit [SetError (JStr (js "Erreur lors de la génération de l'audio"))]
          else
            let avatarMessage := {| text := response_text; sender := js "avatar" |} in
            emit [AppendMessage avatarMessage; SetNotification JNull])
         (fun err =>
            do err_message <- get_prop err (js "message");
            emit [SetError
                    (js_or err_message
                       (JStr (js "Erreur lors de la génération de la réponse ou de l'audio.")));
                  SetNotification JNull]))
      (emit [SetIsLoading false]).

(** [handleResetChat]: the component declares no [setDetectedLang]. *)
Definition handleResetChat : M unit :=
  emit [SetMessages [];
        StorageRemoveItem chatMessages;
        SetNotification (JStr (js "Conversation réinitialisée !"))] ;;;
  do setDetectedLang <- @unbound JsVal "setDetectedLang";
  emit [SetDetectedLang (JStr (js "en"));
        SetTimeout CbClearNotification 2000].

End Visualizer.

Definition is_timer (e : Effect) : bool :=
  match e with SetTimeout _ _ => true | _ => false end.

(** French typed into a fresh component whose detected language is still
    "en". *)
Definition bonjour : State := Sample.typed "Bonjour, comment vas-tu ?".

(** A [franc] that takes every text for French. *)
Definition franc_fra (text : jsstring) : option jsstring := Some (js "fra").

Definition is_play (e : Effect) : bool :=
  match e with AudioPlay => true | _ => false end.

Definition is_pause (e : Effect) : bool :=
  match e with AudioPause => true | _ => false end.

Definition is_set_src (e : Effect) : bool :=
  match e with AudioSetSrc _ => true | _ => false end.

(** ** The render after a reset *)

(** What the effects of the render that follows [handleResetChat] do to
    the cells that the handler wrote.  [messages] has a new value, so the
    persisting effect runs; [message] is as it was, so the language effect
    runs when [detectedLang] has changed, that is unless it was "en"
    before the reset.  The effects read the state [r] of that render and
    run in declaration order.  (The effect that arms the timers of the
    notifications and the one that tracks the last message run too; they
    write none of these cells.) *)
Definition render_after_reset (franc : jsstring -> option jsstring)
    (before r : State) : list Effect :=
  trace (persistEffect r)
  ++ (if strict_eq_str (detectedLang before) (js "en") then []
      else trace (languageEffect franc r)).

(** The state once [handleResetChat] has run in the state [st] and the
    following render has run its effects. *)
Definition after_reset (franc : jsstring -> option jsstring) (st : State) : State :=
  let r := run st (trace handleResetChat) in
  run r (render_after_reset franc st r).

(** Two messages exchanged and stored, French typed into the input box
    and detected. *)
Definition french_chat : State :=
  set_localStorage
    {[ chatMessages := [Sample.user_says "Bonjour"; Sample.avatar_says "Salut"] ]}
    (set_detectedLang (JStr (js "fr"))
       (set_messages [Sample.user_says "Bonjour"; Sample.avatar_says "Salut"]
          bonjour)).

(** French typed into a fresh component, and the language effect of that
    render applied. *)
Definition french_detected : State :=
  run bonjour (trace (languageEffect franc_fra bonjour)).

(** "Hi there" typed into a fresh component and sent, every service
    answering: the state once the turn's updates are applied. *)
Definition audio_set : State :=
  run Sample.hi_there (trace (handleSendMessage Sample.hi_there Sample.all_up)).

(** * Properties *)

Local Close Scope N_scope.

(** ** Strings *)

Lemma trimStart_nil_iff (s : jsstring) : trimStart s = [] <-> blank s = true.
Proof.
  induction s as [|c s IH]; simpl; [tauto|].
  destruct (is_js_whitespace c); simpl; [exact IH|].
  split; discriminate.
Qed.

Lemma blank_app (s1 s2 : jsstring) : blank (s1 ++ s2) = blank s1 && blank s2.
Proof. unfold blank. apply forallb_app. Qed.

Lemma blank_rev (s : jsstring) : blank (rev s) = blank s.
Proof.
  induction s as [|c s IH]; simpl; [reflexivity|].
  rewrite blank_app, IH. simpl. rewrite andb_true_r. apply andb_comm.
Qed.

Lemma blank_trimStart (s : jsstring) : blank (trimStart s) = blank s.
Proof.
  induction s as [|c s IH]; simpl; [reflexivity|].
  destruct (is_js_whitespace c) eqn:E; simpl; [exact IH|].
  now rewrite E.
Qed.

(** [s.trim()] is empty exactly when [s] is empty or all white space. *)
Lemma trim_nil_iff (s : jsstring) : trim s = [] <-> blank s = true.
Proof.
  unfold trim, trimEnd.
  rewrite <- (blank_trimStart s), <- (blank_rev (trimStart s)).
  rewrite <- trimStart_nil_iff.
  split; intros H.
  - apply (f_equal (@rev N)) in H. now rewrite rev_involutive in H.
  - now rewrite H.
Qed.

(** ** Conversions to a string *)

(** Numbers print as the engines print them: digits up to 21 of them, the
    exponent form beyond, the shortest digits that read back as the same
    double past 2^53. *)
Example decimal_samples :
  decimal 1700000000000 = js "1700000000000"
  /\ decimal (-12) = js "-12"
  /\ decimal (2 ^ 53 + 1) = js "9007199254740992"
  /\ decimal (2 ^ 64) = js "18446744073709552000"
  /\ decimal (10 ^ 21) = js "1e+21"
  /\ decimal (2 ^ 70) = js "1.1805916207174113e+21"
  /\ decimal (2 ^ 1024) = js "Infinity".
Proof. vm_compute. repeat split. Qed.

(** A plain object converts to its tag unless it has a [toString] of its
    own; parsed JSON that has one has no function there, and the
    conversion throws, also from inside an array. *)
Example converted_samples :
  converted (JObj [(js "audioId", JNum 1)]) = Some (js "[object Object]")
  /\ converted (JObj [(js "toString", JNum 0)]) = None
  /\ converted (JObj [(js "valueOf", JNum 0)]) = Some (js "[object Object]")
  /\ converted (JArr [JNum 1; JNull; JStr (js "a")]) = Some (js "1,,a")
  /\ converted (JArr [JObj [(js "toString", JNull)]]) = None
  /\ converted JUndefined = Some (js "undefined").
Proof. vm_compute. repeat split. Qed.

(** A value without objects in it converts, to what [to_string] gives. *)
Lemma converted_primitive (v : JsVal) :
  match v with JArr _ | JObj _ => False | _ => True end ->
  converted v = Some (to_string v).
Proof. destruct v; simpl; tauto. Qed.

(** ** The monad *)

Lemma bind_emit {A} (es : list Effect) (k : unit -> M A) :
  bind (emit es) k = (es ++ trace (k tt), outcome (k tt)).
Proof. unfold bind, emit, trace, outcome. now destruct (k tt). Qed.

Lemma bind_ret {A B} (a : A) (k : A -> M B) : bind (ret a) k = k a.
Proof. unfold bind, ret. now destruct (k a). Qed.

Lemma bind_throw {A B} (e : JsVal) (k : A -> M B) : bind (throw e) k = throw e.
Proof. reflexivity. Qed.

Lemma get_prop_defined (v : JsVal) (k : jsstring) :
  nullish v = false -> get_prop v k = ret (prop v k).
Proof. unfold get_prop. now intros ->. Qed.

Lemma assoc_None (k : jsstring) (fields : list (jsstring * JsVal)) :
  k ∉ map fst fields -> assoc k fields = None.
Proof.
  induction fields as [|[k' v] fs IH]; simpl; [reflexivity|].
  intros Hk. apply not_elem_of_cons in Hk as [Hne Hk].
  destruct (decide (k = k')); [contradiction|auto].
Qed.

Lemma strict_eq_str_true (v : JsVal) (s : jsstring) :
  strict_eq_str v s = true <-> v = JStr s.
Proof.
  destruct v; simpl; try (split; [discriminate|congruence]).
  rewrite bool_decide_eq_true. split; congruence.
Qed.

(** What [Object.prototype] contributes to a lookup is never a string. *)
Lemma inherited_not_string (k : jsstring) :
  inherited k = JUndefined
  \/ (truthy (inherited k) = true /\ forall s, inherited k <> JStr s).
Proof.
  unfold inherited.
  repeat case_bool_decide; auto; right; split; auto; discriminate.
Qed.

(** ** Language detection *)

Lemma supported_language (v : JsVal) :
  existsb (fun l => strict_eq_str v (value l)) LANGUAGES = true ->
  v ∈ [JStr (js "en"); JStr (js "fr"); JStr (js "ar")].
Proof.
  unfold LANGUAGES. cbn [existsb value].
  rewrite !orb_true_iff, !strict_eq_str_true.
  intros [->|[->|[->|[=]]]]; rewrite !elem_of_cons; auto.
Qed.

(** C3: for every input string, whatever [franc] answers (or if it throws),
    [detectLanguage] returns one of "en", "fr", "ar"; it returns "en" when
    the trimmed input has fewer than 3 code units; and it returns "en" when
    the code [franc] detected is neither a key of the mapping table nor
    itself a supported tag. *)
Theorem C3_detectLanguage_closed
    (franc : jsstring -> option jsstring) (text : jsstring) :
  detectLanguage franc text ∈ [JStr (js "en"); JStr (js "fr"); JStr (js "ar")]
  /\ ((length (trim text) < 3)%nat -> detectLanguage franc text = JStr (js "en"))
  /\ (forall detected,
        franc (trim text) = Some detected ->
        detected ∉ own_keys langMapping ->
        detected ∉ map value LANGUAGES ->
        detectLanguage franc text = JStr (js "en")).
Proof.
  assert (Hen : JStr (js "en") ∈ [JStr (js "en"); JStr (js "fr"); JStr (js "ar")])
    by (rewrite !elem_of_cons; auto).
  split; [|split].
  - unfold detectLanguage.
    destruct (negb _ || _); [exact Hen|].
    destruct (franc (trim text)) as [detected|]; [|exact Hen].
    destruct (existsb _ LANGUAGES) eqn:E; [|exact Hen].
    now apply supported_language.
  - intros Hlen. unfold detectLanguage.
    apply Nat.ltb_lt in Hlen. rewrite Hlen. now rewrite orb_true_r.
  - intros detected Hf Hkey Hval. unfold detectLanguage. rewrite Hf.
    destruct (negb _ || _); [reflexivity|].
    destruct (existsb _ LANGUAGES) eqn:E; [|reflexivity].
    exfalso. apply existsb_exists in E as (l & Hl & Heq).
    apply strict_eq_str_true in Heq.
    unfold langMapping, prop in Heq. rewrite (assoc_None _ _ Hkey) in Heq.
    destruct (inherited_not_string detected) as [Hu|[Ht Hn]].
    + rewrite Hu in Heq. unfold js_or in Heq. simpl in Heq.
      injection Heq as ->. apply Hval. apply list_elem_of_In, in_map, Hl.
    + unfold js_or in Heq. rewrite Ht in Heq. now apply Hn in Heq.
Qed.

Lemma C3_detectLanguage_witness :
  detectLanguage (fun _ => Some (js "spa")) (js "Hi") = JStr (js "en")
  /\ detectLanguage (fun _ => Some (js "spa")) (js "Hola amigo") = JStr (js "en").
Proof.
  pose proof (C3_detectLanguage_closed (fun _ => Some (js "spa")) (js "Hi"))
    as (_ & Hshort & _).
  pose proof (C3_detectLanguage_closed (fun _ => Some (js "spa")) (js "Hola amigo"))
    as (_ & _ & Hother).
  split.
  - apply Hshort. vm_compute. lia.
  - apply (Hother (js "spa")).
    + reflexivity.
    + apply (bool_decide_unpack _). vm_compute. exact I.
    + apply (bool_decide_unpack _). vm_compute. exact I.
Defined.

(** The scenarios of the specification, for a [franc] that identifies the
    texts as the real one does. *)
Example detect_bonjour :
  detectLanguage (fun _ => Some (js "fra")) (js "Bonjour, comment vas-tu ?")
  = JStr (js "fr").
Proof. reflexivity. Qed.

Example detect_hi_there :
  detectLanguage (fun _ => Some (js "eng")) (js "Hi there") = JStr (js "en").
Proof. reflexivity. Qed.

(** ** Submitting a message *)

Lemma handleSendMessage_blank r env s :
  message r = JStr s -> blank s = true ->
  handleSendMessage r env = ([PreventDefault], inr tt).
Proof.
  intros Hm Hb. unfold handleSendMessage. rewrite Hm. cbn [String_trim].
  rewrite bind_emit, bind_ret.
  apply trim_nil_iff in Hb. rewrite Hb. reflexivity.
Qed.

(** C6: when the input is empty or consists of white space only,
    [handleSendMessage] does nothing beyond [preventDefault]: it updates no
    message list, sends no request, and leaves the message list and the
    loading indicator of any state as they were. *)
Theorem C6_blank_input_is_rejected (r : State) (env : Env) (s : jsstring) :
  message r = JStr s -> blank s = true ->
  handleSendMessage r env = ([PreventDefault], inr tt)
  /\ count is_message_update (trace (handleSendMessage r env)) = 0%nat
  /\ count is_network_call (trace (handleSendMessage r env)) = 0%nat
  /\ forall st, messages (run st (trace (handleSendMessage r env))) = messages st
             /\ isLoading (run st (trace (handleSendMessage r env))) = isLoading st.
Proof.
  intros Hm Hb. rewrite (handleSendMessage_blank r env s Hm Hb).
  repeat split; reflexivity.
Qed.

Lemma C6_blank_input_is_rejected_witness :
  handleSendMessage (Sample.typed "   ") Sample.all_up = ([PreventDefault], inr tt)
  /\ handleSendMessage (Sample.typed "") Sample.all_up = ([PreventDefault], inr tt).
Proof.
  split.
  - apply (C6_blank_input_is_rejected (Sample.typed "   ") Sample.all_up (js "   "));
      reflexivity.
  - apply (C6_blank_input_is_rejected (Sample.typed "") Sample.all_up (js ""));
      reflexivity.
Defined.

(** ** Resetting the conversation *)

Lemma detectLanguage_supported franc text :
  is_supported (detectLanguage franc text) = true.
Proof.
  unfold detectLanguage.
  destruct (negb _ || _); [reflexivity|].
  destruct (franc (trim text)) as [detected|]; [|reflexivity].
  destruct (existsb _ LANGUAGES) eqn:E; [exact E|reflexivity].
Qed.

Lemma is_supported_tags (v : JsVal) : is_supported v = true <-> v ∈ supported_tags.
Proof.
  split; [apply supported_language|].
  unfold supported_tags. rewrite !elem_of_cons.
  intros [->|[->|[->|H]]]; try reflexivity. now apply elem_of_nil in H.
Qed.

Lemma run_app st t1 t2 : run st (t1 ++ t2) = run (run st t1) t2.
Proof. apply foldl_app. Qed.

Lemma languageEffect_after_reset franc (r : State) :
  detectedLang r = JStr (js "en") ->
  detectedLang (run r (trace (languageEffect franc r)))
  = match message r with
    | JStr s => detectLanguage franc s
    | _ => JStr (js "en")
    end
  /\ messages (run r (trace (languageEffect franc r))) = messages r
  /\ localStorage (run r (trace (languageEffect franc r))) = localStorage r.
Proof.
  intros Hl. unfold languageEffect.
  destruct (message r) as [| | | |s| | | |]; try (now repeat split).
  cbn [String_trim]. rewrite bind_ret, Hl.
  destruct (3 <=? length (trim s))%nat eqn:Hlen.
  - destruct (negb (strict_eq_str (JStr (js "en"))
                      (to_string (detectLanguage franc s)))) eqn:Hne.
    + now repeat split.
    + apply negb_false_iff, strict_eq_str_true in Hne.
      repeat split; try assumption.
      cbn [run trace ret fst foldl]. rewrite Hl.
      pose proof (detectLanguage_supported franc s) as Hs.
      apply is_supported_tags in Hs. unfold supported_tags in Hs.
      rewrite !elem_of_cons in Hs.
      destruct Hs as [->|[Hs|[Hs|Hs]]]; [reflexivity| | |now apply elem_of_nil in Hs];
        rewrite Hs in Hne; vm_compute in Hne; discriminate Hne.
  - repeat split; try assumption. cbn [run trace ret fst foldl]. rewrite Hl.
    unfold detectLanguage. apply Nat.leb_gt, Nat.ltb_lt in Hlen.
    now rewrite Hlen, orb_true_r.
Qed.

(** What the reset leaves once the following render has run its effects. *)
Lemma after_reset_cells franc (st : State) :
  messages (after_reset franc st) = []
  /\ localStorage (after_reset franc st) !! chatMessages = Some []
  /\ detectedLang (after_reset franc st)
     = if strict_eq_str (detectedLang st) (js "en") then JStr (js "en")
       else match message st with
            | JStr s => detectLanguage franc s
            | _ => JStr (js "en")
            end.
Proof.
  unfold after_reset, render_after_reset. cbv zeta.
  set (r := run st (trace handleResetChat)).
  set (p := run r (trace (persistEffect r))).
  assert (Hp : messages p = [] /\ localStorage p !! chatMessages = Some []
               /\ detectedLang p = JStr (js "en") /\ message p = message st).
  { repeat split. cbn. apply lookup_insert_eq. }
  destruct Hp as (Hm & Hs & Hl & Hmsg).
  rewrite run_app. fold p.
  destruct (strict_eq_str (detectedLang st) (js "en")).
  - now repeat split.
  - change (trace (languageEffect franc r)) with (trace (languageEffect franc p)).
    destruct (languageEffect_after_reset franc p Hl) as (El & Em & Es).
    rewrite El, Em, Es, Hmsg. now repeat split.
Qed.

(** C8, as the code has it: [handleResetChat] does not throw; once its
    updates are applied the message list is empty, local storage has no
    item under "chatMessages" and the detected language is "en".  The
    render that follows runs its effects: the persisting effect stores the
    empty list under "chatMessages" again, and, unless the detected
    language was "en" before the reset, the language effect detects it
    anew from the text of the input box, which the reset leaves alone.
    After them the message list is still empty, the item under
    "chatMessages" is the empty list, and the detected language is "en" if
    it was before, and otherwise what [detectLanguage] gives for the text
    in the input box. *)
Theorem C8_reset_clears (franc : jsstring -> option jsstring) (st : State) :
  outcome handleResetChat = inr tt
  /\ messages (run st (trace handleResetChat)) = []
  /\ localStorage (run st (trace handleResetChat)) !! chatMessages = None
  /\ detectedLang (run st (trace handleResetChat)) = JStr (js "en")
  /\ messages (after_reset franc st) = []
  /\ localStorage (after_reset franc st) !! chatMessages = Some []
  /\ detectedLang (after_reset franc st)
     = if strict_eq_str (detectedLang st) (js "en") then JStr (js "en")
       else match message st with
            | JStr s => detectLanguage franc s
            | _ => JStr (js "en")
            end.
Proof.
  split; [reflexivity|]. split; [reflexivity|].
  split; [cbn; apply lookup_delete_eq|]. split; [reflexivity|].
  apply after_reset_cells.
Qed.

(** C8, as stated, fails: after a reset in a conversation held in French,
    with French text still in the input box, local storage has an item
    under "chatMessages" and the detected language is not "en". *)
Lemma C8_reset_does_not_last :
  localStorage (after_reset franc_fra french_chat) !! chatMessages <> None
  /\ detectedLang (after_reset franc_fra french_chat) <> JStr (js "en").
Proof.
  destruct (after_reset_cells franc_fra french_chat) as (_ & Hs & Hl).
  split; [now rewrite Hs|].
  rewrite Hl. vm_compute. discriminate.
Qed.

(** The render that follows a reset has a new [messages] value, so the
    persisting effect runs and stores the empty list under the key again. *)
Remark reset_then_persist (st : State) :
  let st' := run st (trace handleResetChat) in
  localStorage (run st' (trace (persistEffect st'))) !! chatMessages = Some [].
Proof. cbn. apply lookup_insert_eq. Qed.

(** [handleResetChat] leaves the input box alone: if it holds a text that
    is detected as French, the language effect of the following render
    sets the detected language to "fr" again. *)
Remark reset_then_redetect :
  let st' := run (Sample.typed "Bonjour, comment vas-tu ?") (trace handleResetChat) in
  detectedLang (run st' (trace (languageEffect (fun _ => Some (js "fra")) st')))
  = JStr (js "fr").
Proof. reflexivity. Qed.

(** ** Traces of composed computations *)

Lemma bind_val {A B} (t : list Effect) (a : A) (k : A -> M B) :
  bind (t, inr a) k = (t ++ trace (k a), outcome (k a)).
Proof. unfold bind, trace, outcome. now destruct (k a). Qed.

Lemma trace_bind {A B} (m : M A) (k : A -> M B) :
  trace (bind m k)
  = trace m ++ match outcome m with inr a => trace (k a) | inl _ => [] end.
Proof.
  destruct m as [t [e|a]]; simpl; [now rewrite app_nil_r|]. now destruct (k a).
Qed.

Lemma trace_try_catch {A} (m : M A) (h : JsVal -> M A) :
  trace (try_catch m h)
  = trace m ++ match outcome m with inl e => trace (h e) | inr _ => [] end.
Proof.
  destruct m as [t [e|a]]; simpl; [|now rewrite app_nil_r]. now destruct (h e).
Qed.

Lemma trace_finally {A} (m : M A) (f : M unit) :
  trace (finally m f) = trace m ++ trace f.
Proof. destruct m as [t r], f as [t' r']. reflexivity. Qed.

Section Only.

Variable P : Effect -> Prop.

Lemma only_ret {A} (a : A) : only P (ret a).
Proof. constructor. Qed.

Lemma only_throw {A} (e : JsVal) : only P (@throw A e).
Proof. constructor. Qed.

Lemma only_emit (es : list Effect) : Forall P es -> only P (emit es).
Proof. exact id. Qed.

Lemma only_bind {A B} (m : M A) (k : A -> M B) :
  only P m -> (forall a, only P (k a)) -> only P (bind m k).
Proof.
  unfold only. intros Hm Hk. rewrite trace_bind.
  apply Forall_app. split; [exact Hm|].
  destruct (outcome m); [constructor|apply Hk].
Qed.

Lemma only_try_catch {A} (m : M A) (h : JsVal -> M A) :
  only P m -> (forall e, only P (h e)) -> only P (try_catch m h).
Proof.
  unfold only. intros Hm Hh. rewrite trace_try_catch.
  apply Forall_app. split; [exact Hm|].
  destruct (outcome m); [apply Hh|constructor].
Qed.

Lemma only_finally {A} (m : M A) (f : M unit) :
  only P m -> only P f -> only P (finally m f).
Proof. unfold only. intros. rewrite trace_finally. now apply Forall_app. Qed.

Lemma only_get_prop (v : JsVal) (k : jsstring) : only P (get_prop v k).
Proof. unfold get_prop. destruct (nullish v); constructor. Qed.

End Only.

(** Walks through a computation, leaving [P e] for each emitted effect. *)
Ltac only_step :=
  lazymatch goal with
  | |- only _ (ret _) => apply only_ret
  | |- only _ (throw _) => apply only_throw
  | |- only _ (get_prop _ _) => apply only_get_prop
  | |- only _ (emit _) => apply only_emit; repeat constructor
  | |- only _ (bind _ _) => apply only_bind; [|intros ?]
  | |- only _ (try_catch _ _) => apply only_try_catch; [|intros ?]
  | |- only _ (finally _ _) => apply only_finally
  | |- only _ (if ?c then _ else _) => destruct c
  | |- only _ (match ?x with _ => _ end) => destruct x
  end.

Ltac only_tac := cbv zeta; repeat only_step.

(** ** The remote clients *)

Lemma default_arg_truthy (v d : JsVal) : truthy v = true -> default_arg v d = v.
Proof. now destruct v. Qed.

Lemma generateResponse_ok env p d :
  remote env ChatApi p = HttpOk d ->
  apiClient.generateResponse env p = ([HttpPost ChatApi p], inr d).
Proof.
  intros H. unfold apiClient.generateResponse, axios.post. rewrite H. reflexivity.
Qed.

(** A failed chat call is turned into the sentinel, not thrown. *)
Lemma generateResponse_fail env p e :
  remote env ChatApi p = HttpFail e ->
  apiClient.generateResponse env p
  = ([HttpPost ChatApi p], inr (sentinel (failure_message e))).
Proof.
  intros H. unfold apiClient.generateResponse, axios.post. rewrite H.
  unfold failure_message, js_or.
  destruct e as [m [d|]]; cbn -[js].
  - destruct (truthy (prop d (js "detail"))) eqn:E;
      vm_compute in E |- *; rewrite E; reflexivity.
  - reflexivity.
Qed.

Lemma ToString_converts (v : JsVal) (s : jsstring) :
  converted v = Some s -> ToString v = ret s.
Proof. unfold ToString. now intros ->. Qed.

Lemma ToString_throws (v : JsVal) :
  converts v = false -> ToString v = throw conversion_error.
Proof. unfold ToString, converts. now destruct (converted v). Qed.

Lemma converts_Some (v : JsVal) :
  converts v = true -> exists s, converted v = Some s.
Proof. unfold converts. destruct (converted v); [eauto|discriminate]. Qed.

(** The log line is built, or one of its three conversions throws. *)
Lemma log_line_built text language audioId :
  converts text && converts language && converts audioId = true ->
  exists line, ttsService.log_line text language audioId = ret line.
Proof.
  rewrite !andb_true_iff. intros [[Ht Hl] Ha].
  apply converts_Some in Ht as [t Ht], Hl as [l Hl], Ha as [a Ha].
  unfold ttsService.log_line.
  rewrite (ToString_converts _ _ Ht), bind_ret.
  rewrite (ToString_converts _ _ Hl), bind_ret.
  rewrite (ToString_converts _ _ Ha), bind_ret. eauto.
Qed.

Lemma log_line_throws text language audioId :
  converts text && converts language && converts audioId = false ->
  ttsService.log_line text language audioId = throw conversion_error.
Proof.
  intros H. unfold ttsService.log_line.
  destruct (converts text) eqn:Ht; [|now rewrite (ToString_throws _ Ht)].
  apply converts_Some in Ht as [t Ht].
  rewrite (ToString_converts _ _ Ht), bind_ret.
  destruct (converts language) eqn:Hl; [|now rewrite (ToString_throws _ Hl)].
  apply converts_Some in Hl as [l Hl].
  rewrite (ToString_converts _ _ Hl), bind_ret.
  destruct (converts audioId) eqn:Ha; [discriminate H|].
  now rewrite (ToString_throws _ Ha).
Qed.

(** When a value of the log line does not convert, [generateAudio] sends
    nothing and returns the sentinel. *)
Lemma generateAudio_unsent env text id lang :
  truthy lang = true ->
  converts text && converts lang && converts id = false ->
  ttsService.generateAudio env text id lang JUndefined
  = ([], inr (sentinel (JStr (js "Cannot convert object to primitive value")))).
Proof.
  intros Hl H. unfold ttsService.generateAudio.
  rewrite (default_arg_truthy _ _ Hl). cbn [default_arg].
  rewrite (log_line_throws _ _ _ H). reflexivity.
Qed.

Lemma generateAudio_ok env text id lang result :
  truthy lang = true ->
  converts text && converts lang && converts id = true ->
  remote env TtsApi (ttsService.request_body text id lang speaker_default)
    = HttpOk result ->
  ttsService.generateAudio env text id lang JUndefined
  = ([HttpPost TtsApi (ttsService.request_body text id lang speaker_default)],
     inr result).
Proof.
  intros Hl Hc H. unfold ttsService.generateAudio, axios.post.
  rewrite (default_arg_truthy _ _ Hl). cbn [default_arg].
  destruct (log_line_built _ _ _ Hc) as [line ->]. rewrite bind_ret.
  fold speaker_default. rewrite H. reflexivity.
Qed.

Lemma generateAudio_fail env text id lang e :
  truthy lang = true ->
  converts text && converts lang && converts id = true ->
  remote env TtsApi (ttsService.request_body text id lang speaker_default)
    = HttpFail e ->
  ttsService.generateAudio env text id lang JUndefined
  = ([HttpPost TtsApi (ttsService.request_body text id lang speaker_default)],
     inr (sentinel (failure_message e))).
Proof.
  intros Hl Hc H. unfold ttsService.generateAudio, axios.post.
  rewrite (default_arg_truthy _ _ Hl). cbn [default_arg].
  destruct (log_line_built _ _ _ Hc) as [line ->]. rewrite bind_ret.
  fold speaker_default. rewrite H.
  unfold failure_message, js_or.
  destruct e as [m [d|]]; cbn -[js].
  - destruct (truthy (prop d (js "detail"))) eqn:E;
      vm_compute in E |- *; rewrite E; reflexivity.
  - reflexivity.
Qed.

(** A result of [generateAudio] that is not flagged as an error is the
    body the service answered with: the log line was built and the
    request sent. *)
Lemma generateAudio_answered env text id lang result :
  truthy lang = true ->
  outcome (ttsService.generateAudio env text id lang JUndefined) = inr result ->
  truthy (prop result (js "error")) = false ->
  converts text && converts lang && converts id = true
  /\ remote env TtsApi (ttsService.request_body text id lang speaker_default)
     = HttpOk result.
Proof.
  intros Hl Ho He.
  destruct (converts text && converts lang && converts id) eqn:Hc.
  - split; [reflexivity|].
    destruct (remote env TtsApi
                (ttsService.request_body text id lang speaker_default))
      as [d|e] eqn:H.
    + rewrite (generateAudio_ok _ _ _ _ _ Hl Hc H) in Ho.
      cbn [outcome snd] in Ho. congruence.
    + rewrite (generateAudio_fail _ _ _ _ _ Hl Hc H) in Ho.
      cbn [outcome snd] in Ho. injection Ho as <-. discriminate He.
  - rewrite (generateAudio_unsent _ _ _ _ Hl Hc) in Ho.
    cbn [outcome snd] in Ho. injection Ho as <-. discriminate He.
Qed.

(** ** A conversation turn *)

Lemma truthy_trim (s : jsstring) : blank s = false -> truthy (JStr (trim s)) = true.
Proof.
  intros Hb. destruct (trim s) eqn:E; [|reflexivity].
  apply trim_nil_iff in E. congruence.
Qed.

Lemma newAudioId_converts env : converts (newAudioId env) = true.
Proof. reflexivity. Qed.

Lemma audio_path_built (result : JsVal) (id : jsstring) :
  converted (prop result (js "audioId")) = Some id ->
  audio_path result = ret (js "/audios/" ++ id ++ js ".mp3").
Proof.
  intros H. unfold audio_path. now rewrite (ToString_converts _ _ H), bind_ret.
Qed.

Lemma audio_path_throws (result : JsVal) :
  converted (prop result (js "audioId")) = None ->
  audio_path result = throw conversion_error.
Proof.
  intros H. unfold audio_path. rewrite ToString_throws; [reflexivity|].
  unfold converts. now rewrite H.
Qed.

Lemma generateAudioAndLipsync_ok env text message audios lang result id :
  truthy lang = true ->
  converts text && converts lang = true ->
  remote env TtsApi
    (ttsService.request_body text (newAudioId env) lang speaker_default)
    = HttpOk result ->
  nullish result = false ->
  truthy (prop result (js "error")) = false ->
  converted (prop result (js "audioId")) = Some id ->
  generateAudioAndLipsync env text message audios lang
  = ([audio_notice;
      HttpPost TtsApi
        (ttsService.request_body text (newAudioId env) lang speaker_default);
      SetAudioFile (js "/audios/" ++ id ++ js ".mp3")],
     inr (prop result (js "audioPath"))).
Proof.
  intros Hl Hc H Hn He Hid. unfold generateAudioAndLipsync.
  rewrite Hl, bind_emit, bind_ret.
  assert (Hc' : converts text && converts lang && converts (newAudioId env) = true)
    by now rewrite newAudioId_converts, andb_true_r.
  rewrite (generateAudio_ok _ _ _ _ _ Hl Hc' H).
  rewrite bind_val, !(get_prop_defined _ _ Hn), bind_ret, He.
  rewrite (audio_path_built _ _ Hid), bind_ret, bind_emit.
  reflexivity.
Qed.

(** The whole trace of a turn whose speech request is answered with a body
    that is not flagged as an error and whose [audioId] converts to the
    string [id]. *)
Lemma handleSendMessage_tts_answered r env s response result id :
  message r = JStr s -> blank s = false ->
  truthy (detectedLang r) = true ->
  outcome (apiClient.generateResponse env (chat_payload r)) = inr response ->
  nullish response = false ->
  outcome (ttsService.generateAudio env (prop response (js "text"))
             (newAudioId env) (detectedLang r) JUndefined) = inr result ->
  nullish result = false ->
  truthy (prop result (js "error")) = false ->
  converted (prop result (js "audioId")) = Some id ->
  handleSendMessage r env
  = (turn_start r
     ++ [audio_notice; HttpPost TtsApi (turn_tts_request r env response);
         SetAudioFile (js "/audios/" ++ id ++ js ".mp3")]
     ++ (if truthy (prop result (js "audioPath"))
         then [AppendMessage {| text := prop response (js "text");
                                sender := js "avatar" |};
               SetNotification JNull]
         else [SetError (JStr (js "Erreur lors de la génération de l'audio"))])
     ++ [SetIsLoading false],
     inr tt).
Proof.
  intros Hm Hb Hl Hc Hnr Ht Hn He Hid.
  assert (Hc' : apiClient.generateResponse env (chat_payload r)
                = ([HttpPost ChatApi (chat_payload r)], inr response)).
  { destruct (remote env ChatApi (chat_payload r)) eqn:E.
    - rewrite (generateResponse_ok _ _ _ E) in *. simpl in Hc. congruence.
    - rewrite (generateResponse_fail _ _ _ E) in *. simpl in Hc. congruence. }
  destruct (generateAudio_answered _ _ _ _ _ Hl Ht He) as [Hcv Hr].
  rewrite newAudioId_converts, andb_true_r in Hcv.
  unfold handleSendMessage. rewrite Hm. cbn [String_trim].
  rewrite bind_emit, bind_ret, (truthy_trim _ Hb). cbn [negb].
  rewrite bind_emit, Hc', bind_val, (get_prop_defined _ _ Hnr), bind_ret.
  rewrite (generateAudioAndLipsync_ok _ _ _ _ _ _ _ Hl Hcv Hr Hn He Hid), bind_val.
  unfold turn_start, turn_tts_request. rewrite Hm.
  destruct (truthy (prop result (js "audioPath"))); reflexivity.
Qed.

(** C2, as the code has it: in a turn (input not blank, a detected
    language set) whose chat request is answered with a body (not [null])
    and in which the speech client returns a body (not [null]) that has no
    truthy [error], a truthy [audioPath], and an [audioId] that converts to
    a string, exactly one avatar message is appended and the audio
    reference is set exactly once; the audio reference is set first, the
    avatar message is appended after it. *)
Theorem C2_successful_turn r env s data result id :
  message r = JStr s -> blank s = false ->
  truthy (detectedLang r) = true ->
  remote env ChatApi (chat_payload r) = HttpOk data ->
  nullish data = false ->
  outcome (ttsService.generateAudio env (prop data (js "text"))
             (newAudioId env) (detectedLang r) JUndefined) = inr result ->
  nullish result = false ->
  truthy (prop result (js "error")) = false ->
  truthy (prop result (js "audioPath")) = true ->
  converted (prop result (js "audioId")) = Some id ->
  let t := trace (handleSendMessage r env) in
  count is_avatar_append t = 1%nat
  /\ count is_audio_update t = 1%nat
  /\ precedes is_audio_update is_avatar_append t = true
  /\ precedes is_avatar_append is_audio_update t = false.
Proof.
  intros Hm Hb Hl Hc Hnd Ht Hn He Hp Hid t. subst t.
  rewrite (handleSendMessage_tts_answered r env s data result id); auto.
  - rewrite Hp. repeat split; reflexivity.
  - now rewrite (generateResponse_ok _ _ _ Hc).
Qed.

Lemma C2_successful_turn_witness :
  count is_avatar_append (trace (handleSendMessage Sample.hi_there Sample.all_up))
  = 1%nat
  /\ count is_audio_update (trace (handleSendMessage Sample.hi_there Sample.all_up))
     = 1%nat
  /\ precedes is_audio_update is_avatar_append
       (trace (handleSendMessage Sample.hi_there Sample.all_up)) = true
  /\ precedes is_avatar_append is_audio_update
       (trace (handleSendMessage Sample.hi_there Sample.all_up)) = false.
Proof.
  apply (C2_successful_turn Sample.hi_there Sample.all_up
           (js "Hi there") Sample.reply Sample.rendered (js "audio-1"));
    reflexivity.
Defined.

(** C2, as stated, fails: with both services answering, the one avatar
    message is not appended before the one update of the audio reference. *)
Lemma C2_append_is_not_first :
  ~ (count is_avatar_append
       (trace (handleSendMessage Sample.hi_there Sample.all_up)) = 1%nat
     /\ count is_audio_update
          (trace (handleSendMessage Sample.hi_there Sample.all_up)) = 1%nat
     /\ precedes is_avatar_append is_audio_update
          (trace (handleSendMessage Sample.hi_there Sample.all_up)) = true).
Proof. vm_compute. intros (_ & _ & H). discriminate H. Qed.


Lemma prop_absent (v : JsVal) (k : jsstring) :
  nullish v = false -> k ∉ own_keys v -> k <> js "name" -> prop v k = inherited k.
Proof.
  intros Hv Hk Hn. destruct v; try discriminate Hv; try reflexivity; simpl.
  - now rewrite (assoc_None _ _ Hk).
  - now rewrite bool_decide_eq_false_2.
Qed.

Lemma audio_path_truthy (id : jsstring) :
  truthy (JStr (js "/audios/" ++ id ++ js ".mp3")) = true.
Proof.
  let v := eval vm_compute in (js "/audios/") in change (js "/audios/") with v.
  reflexivity.
Qed.

(** C10, as the code has it: in a turn (input not blank, a detected
    language set, the chat client having returned a value) in which the
    speech client returns a body (not [null]) that has no truthy [error],
    no [audioPath] field, and an [audioId] that converts to a string, the
    audio reference is still set, to the path built from that string (so
    the playback effect starts playing it), while the turn ends as a
    failure: an error notification is raised and no avatar message is
    appended. *)
Theorem C10_audio_set_on_failed_turn r env s response result id :
  message r = JStr s -> blank s = false ->
  truthy (detectedLang r) = true ->
  outcome (apiClient.generateResponse env (chat_payload r)) = inr response ->
  nullish response = false ->
  outcome (ttsService.generateAudio env (prop response (js "text"))
             (newAudioId env) (detectedLang r) JUndefined) = inr result ->
  nullish result = false ->
  truthy (prop result (js "error")) = false ->
  js "audioPath" ∉ own_keys result ->
  converted (prop result (js "audioId")) = Some id ->
  let t := trace (handleSendMessage r env) in
  List.filter is_audio_update t = [SetAudioFile (js "/audios/" ++ id ++ js ".mp3")]
  /\ existsb is_error_notification t = true
  /\ count is_avatar_append t = 0%nat
  /\ forall st,
       audioFile (run st t) = js "/audios/" ++ id ++ js ".mp3"
       /\ AudioPlay ∈ trace (playbackEffect (run st t)).
Proof.
  intros Hm Hb Hl Hc Hnr Ht Hn He Hp Hid t. subst t.
  assert (Hu : prop result (js "audioPath") = JUndefined).
  { rewrite prop_absent; [reflexivity|exact Hn|exact Hp|discriminate]. }
  rewrite (handleSendMessage_tts_answered r env s response result id); auto.
  rewrite Hu. cbn [truthy trace fst].
  repeat split; try reflexivity.
  unfold playbackEffect.
  replace (audioFile (run st _)) with (js "/audios/" ++ id ++ js ".mp3")
    by reflexivity.
  rewrite audio_path_truthy. cbn. rewrite !elem_of_cons; auto.
Qed.

Lemma C10_audio_set_on_failed_turn_witness :
  List.filter is_audio_update
    (trace (handleSendMessage Sample.hi_there Sample.tts_no_path))
  = [SetAudioFile (js "/audios/audio-1.mp3")]
  /\ existsb is_error_notification
       (trace (handleSendMessage Sample.hi_there Sample.tts_no_path)) = true
  /\ count is_avatar_append
       (trace (handleSendMessage Sample.hi_there Sample.tts_no_path)) = 0%nat.
Proof.
  pose proof (C10_audio_set_on_failed_turn Sample.hi_there Sample.tts_no_path
           (js "Hi there") Sample.reply Sample.rendered_without_path
           (js "audio-1")) as H.
  cbv zeta in H.
  destruct H as (H1 & H2 & H3 & _); try reflexivity.
  - apply (bool_decide_unpack _). vm_compute. exact I.
  - repeat split; assumption.
Defined.

(** C10, as stated, fails.  A speech service that answers with [null]
    has answered without an error and without an [audioPath]; so has one
    whose [audioId] is an object with a member [toString] of its own.  In
    both turns the speech client returns that body, [generateAudioAndLipsync]
    throws inside its [try] before [setAudioFile] is reached, and the
    audio reference is not set. *)
Lemma C10_audio_not_always_set :
  (outcome (ttsService.generateAudio Sample.tts_null
              (prop Sample.reply (js "text")) (newAudioId Sample.tts_null)
              (detectedLang Sample.hi_there) JUndefined) = inr JNull
   /\ count is_audio_update
        (trace (handleSendMessage Sample.hi_there Sample.tts_null)) = 0%nat)
  /\ (outcome (ttsService.generateAudio Sample.tts_odd_id
                 (prop Sample.reply (js "text")) (newAudioId Sample.tts_odd_id)
                 (detectedLang Sample.hi_there) JUndefined)
      = inr Sample.rendered_odd_id
      /\ truthy (prop Sample.rendered_odd_id (js "error")) = false
      /\ (js "audioPath" ∉ own_keys Sample.rendered_odd_id)
      /\ count is_audio_update
           (trace (handleSendMessage Sample.hi_there Sample.tts_odd_id)) = 0%nat).
Proof.
  repeat split; try reflexivity.
  apply (bool_decide_unpack _). vm_compute. exact I.
Qed.

(** C1 fails on the code: [handleSendMessage] never looks at the [error]
    flag of what [generateResponse] returned.  With the chat service
    unreachable and the speech service answering, the turn appends an
    avatar message (whose text is [undefined], the sentinel having no
    [text]) and raises no error notification. *)
Theorem C1_chat_sentinel_not_checked :
  outcome (apiClient.generateResponse Sample.chat_down
             (chat_payload Sample.hi_there))
  = inr (sentinel (JStr (js "Network Error")))
  /\ List.filter is_avatar_append
       (trace (handleSendMessage Sample.hi_there Sample.chat_down))
     = [AppendMessage {| text := JUndefined; sender := js "avatar" |}]
  /\ existsb is_error_notification
       (trace (handleSendMessage Sample.hi_there Sample.chat_down)) = false.
Proof. vm_compute. auto. Qed.


Lemma slice_last5 {A} (l : list A) : slice_from (-5) l = drop (length l - 5) l.
Proof. unfold slice_from. cbn [Z.ltb Z.compare]. f_equal. lia. Qed.

Lemma generateResponse_returns env p :
  exists v, apiClient.generateResponse env p = ([HttpPost ChatApi p], inr v).
Proof.
  destruct (remote env ChatApi p) eqn:E.
  - eexists. apply generateResponse_ok, E.
  - eexists. apply generateResponse_fail, E.
Qed.

Lemma only_generateAudioAndLipsync (P : Effect -> Prop) env text message audios lang :
  (forall body, P (HttpPost TtsApi body)) ->
  (forall v, P (SetNotification v)) -> (forall v, P (SetError v)) ->
  (forall p, P (SetAudioFile p)) ->
  only P (generateAudioAndLipsync env text message audios lang).
Proof.
  intros. unfold generateAudioAndLipsync, ttsService.generateAudio, axios.post,
    ttsService.log_line, audio_path, ToString.
  only_tac; auto.
Qed.

Lemma filter_none (P : Effect -> bool) (t : list Effect) :
  Forall (fun e => P e = false) t -> List.filter P t = [].
Proof.
  induction 1 as [|e t He _ IH]; simpl; [reflexivity|]. now rewrite He.
Qed.

(** A turn starts with [turn_start]; nothing after it is a chat request. *)
Lemma handleSendMessage_after_chat r env s :
  message r = JStr s -> blank s = false ->
  exists rest,
    trace (handleSendMessage r env) = turn_start r ++ rest
    /\ Forall (fun e => is_chat_request e = false) rest.
Proof.
  intros Hm Hb.
  unfold handleSendMessage. rewrite Hm. cbn [String_trim].
  rewrite bind_emit, bind_ret, (truthy_trim _ Hb). cbn [negb].
  rewrite bind_emit.
  destruct (generateResponse_returns env (chat_payload r)) as [response Hr].
  rewrite trace_finally, trace_try_catch, Hr, bind_val.
  cbn [trace outcome fst snd]. unfold turn_start. rewrite Hm.
  eexists. split; [cbn [app]; rewrite <- !app_assoc; reflexivity|].
  repeat apply Forall_app_2.
  - change (only (fun e => is_chat_request e = false)
              (do response_text <- get_prop response (js "text");
               do audioPath <-
                 generateAudioAndLipsync env response_text (JStr s) (audios r)
                   (detectedLang r);
               if negb (truthy audioPath) then
                 emit [SetError (JStr (js "Erreur lors de la génération de l'audio"))]
               else
                 emit [AppendMessage {| text := response_text; sender := js "avatar" |};
                       SetNotification JNull])).
    only_tac; try reflexivity.
    apply only_generateAudioAndLipsync; reflexivity.
  - match goal with |- context [match ?o with inl _ => _ | inr _ => _ end] => destruct o end;
      [|constructor].
    match goal with |- Forall ?P (trace ?m) => change (only P m) end.
    only_tac; reflexivity.
  - repeat constructor.
Qed.

(** The body of the chat request, entry by entry. *)
Lemma chat_payload_entries (r : State) :
  chat_payload r
  = JObj [(js "history",
           JArr (map (fun m =>
                        JObj [(js "role",
                               JStr (if bool_decide (sender m = js "user")
                                     then js "user" else js "assistant"));
                              (js "content", text m)])
                   (drop (length (messages r) - 5) (messages r))
                 ++ [JObj [(js "role", JStr (js "user"));
                           (js "content", message r)]]));
          (js "detectedLanguage", detectedLang r)].
Proof.
  unfold chat_payload, conversationHistory. rewrite slice_last5.
  rewrite map_app, map_map. reflexivity.
Qed.

(** A turn on an input that is not blank sends one chat request. *)
Lemma chat_request_of_turn r env s :
  message r = JStr s -> blank s = false ->
  List.filter is_chat_request (trace (handleSendMessage r env))
  = [HttpPost ChatApi (chat_payload r)].
Proof.
  intros Hm Hb.
  destruct (handleSendMessage_after_chat r env s Hm Hb) as (rest & -> & Hrest).
  rewrite List.filter_app, (filter_none _ _ Hrest). reflexivity.
Qed.

(** C4: whatever the length of the message list, a turn on an input that
    is not blank sends exactly one chat request, and the [history] of its
    body is the last (at most 5) prior messages followed by the current
    input, hence at most 6 entries.  The entry of a prior message has the
    role "user" if its sender is "user" and "assistant" otherwise, and the
    message's text as its content; the last entry has the role "user" and
    the input as its content. *)
Theorem C4_history_window (r : State) (env : Env) (s : jsstring) :
  message r = JStr s -> blank s = false ->
  let window := drop (length (messages r) - 5) (messages r) in
  let entries :=
    map (fun m =>
           JObj [(js "role",
                  JStr (if bool_decide (sender m = js "user")
                        then js "user" else js "assistant"));
                 (js "content", text m)]) window
    ++ [JObj [(js "role", JStr (js "user")); (js "content", JStr s)]] in
  window `suffix_of` messages r
  /\ length window = Nat.min 5 (length (messages r))
  /\ (length entries <= 6)%nat
  /\ List.filter is_chat_request (trace (handleSendMessage r env))
     = [HttpPost ChatApi
          (JObj [(js "history", JArr entries);
                 (js "detectedLanguage", detectedLang r)])].
Proof.
  intros Hm Hb window entries. subst window entries.
  assert (Hlen : length (drop (length (messages r) - 5) (messages r))
                 = Nat.min 5 (length (messages r))).
  { rewrite length_drop. lia. }
  split; [apply suffix_drop|].
  split; [exact Hlen|].
  split; [rewrite length_app, length_map, Hlen; cbn [length]; lia|].
  rewrite (chat_request_of_turn r env s Hm Hb), chat_payload_entries, Hm.
  reflexivity.
Qed.

Lemma C4_history_window_witness :
  List.filter is_chat_request
    (trace (handleSendMessage Sample.long_conversation Sample.all_up))
  = [HttpPost ChatApi
       (JObj [(js "history",
               JArr [JObj [(js "role", JStr (js "user")); (js "content", JStr (js "3"))];
                     JObj [(js "role", JStr (js "assistant")); (js "content", JStr (js "4"))];
                     JObj [(js "role", JStr (js "user")); (js "content", JStr (js "5"))];
                     JObj [(js "role", JStr (js "assistant")); (js "content", JStr (js "6"))];
                     JObj [(js "role", JStr (js "user")); (js "content", JStr (js "7"))];
                     JObj [(js "role", JStr (js "user"));
                           (js "content", JStr (js "Hi there"))]]);
              (js "detectedLanguage", JStr (js "en"))])].
Proof.
  exact (proj2 (proj2 (proj2
           (C4_history_window Sample.long_conversation Sample.all_up (js "Hi there")
              eq_refl eq_refl)))).
Defined.

Example long_conversation_history :
  map role (conversationHistory Sample.long_conversation)
  = [js "user"; js "assistant"; js "user"; js "assistant"; js "user"; js "user"].
Proof. reflexivity. Qed.

(** ** Speech to text *)









(** ** When both services fail *)

Lemma sentinel_error (m : JsVal) : prop (sentinel m) (js "error") = JBool true.
Proof. reflexivity. Qed.

Lemma sentinel_message (m : JsVal) : prop (sentinel m) (js "message") = m.
Proof. reflexivity. Qed.

Lemma sentinel_text (m : JsVal) : prop (sentinel m) (js "text") = JUndefined.
Proof. reflexivity. Qed.

Lemma generateAudioAndLipsync_fail env text message audios lang e :
  truthy lang = true ->
  converts text && converts lang = true ->
  remote env TtsApi
    (ttsService.request_body text (newAudioId env) lang speaker_default)
    = HttpFail e ->
  generateAudioAndLipsync env text message audios lang
  = ([audio_notice;
      HttpPost TtsApi
        (ttsService.request_body text (newAudioId env) lang speaker_default);
      SetError (js_or (failure_message e)
                      (JStr (js "Erreur lors de la génération audio")));
      SetNotification JNull],
     inr JNull).
Proof.
  intros Hl Hc H. unfold generateAudioAndLipsync.
  rewrite Hl, bind_emit, bind_ret.
  assert (Hc' : converts text && converts lang && converts (newAudioId env) = true)
    by now rewrite newAudioId_converts, andb_true_r.
  rewrite (generateAudio_fail _ _ _ _ _ Hl Hc' H).
  rewrite bind_val, !get_prop_defined by reflexivity.
  rewrite bind_ret, sentinel_error. cbn [truthy].
  rewrite bind_ret, sentinel_message, bind_emit. reflexivity.
Qed.

(** When the reply text or the language does not convert to a string,
    no speech request is sent and the turn's audio step fails. *)
Lemma generateAudioAndLipsync_unsent env text message audios lang :
  truthy lang = true ->
  converts text && converts lang = false ->
  generateAudioAndLipsync env text message audios lang
  = ([audio_notice;
      SetError (JStr (js "Cannot convert object to primitive value"));
      SetNotification JNull],
     inr JNull).
Proof.
  intros Hl Hc. unfold generateAudioAndLipsync.
  rewrite Hl, bind_emit, bind_ret.
  assert (Hc' : converts text && converts lang && converts (newAudioId env) = false)
    by now rewrite newAudioId_converts, andb_true_r.
  rewrite (generateAudio_unsent _ _ _ _ Hl Hc').
  rewrite bind_val, !get_prop_defined by reflexivity.
  rewrite bind_ret, sentinel_error. cbn [truthy].
  rewrite bind_ret, sentinel_message, bind_emit. vm_compute. reflexivity.
Qed.

(** When the speech request fails as well, the turn does end the way C1
    describes. *)
Lemma chat_and_tts_failure r env s e e' :
  message r = JStr s -> blank s = false ->
  truthy (detectedLang r) = true ->
  remote env ChatApi (chat_payload r) = HttpFail e ->
  remote env TtsApi (turn_tts_request r env (sentinel (failure_message e)))
    = HttpFail e' ->
  let t := trace (handleSendMessage r env) in
  count is_avatar_append t = 0%nat /\ existsb is_error_notification t = true.
Proof.
  intros Hm Hb Hl Hc Ht t. subst t.
  unfold handleSendMessage. rewrite Hm. cbn [String_trim].
  rewrite bind_emit, bind_ret, (truthy_trim _ Hb). cbn [negb].
  rewrite bind_emit, (generateResponse_fail _ _ _ Hc), bind_val.
  rewrite get_prop_defined by reflexivity. rewrite bind_ret.
  unfold turn_tts_request in Ht.
  destruct (converts (prop (sentinel (failure_message e)) (js "text"))
            && converts (detectedLang r)) eqn:Hcv.
  - rewrite (generateAudioAndLipsync_fail _ _ _ _ _ _ Hl Hcv Ht), bind_val.
    cbn -[js]. split; [reflexivity|].
    unfold js_or. destruct (truthy (failure_message e')) eqn:E.
    + rewrite E. reflexivity.
    + reflexivity.
  - rewrite (generateAudioAndLipsync_unsent _ _ _ _ _ Hl Hcv), bind_val.
    split; reflexivity.
Qed.


(** ** Voice input *)

Lemma handleAudioTranscription_string r s :
  handleAudioTranscription r (JStr s)
  = ([SetMessage (JStr s); SetTimeout (CbSend r) 100], inr tt).
Proof. reflexivity. Qed.

Lemma handleAudioTranscription_without_lang r v :
  is_string v = false ->
  truthy (prop (js_or v (JObj [])) (js "lang")) = false ->
  handleAudioTranscription r v
  = ([SetMessage (js_or (prop (js_or v (JObj [])) (js "text")) (JStr []));
      SetTimeout (CbSend r) 100], inr tt).
Proof.
  intros Hs Hl. unfold handleAudioTranscription.
  destruct v; try discriminate Hs; cbv zeta; rewrite Hl; reflexivity.
Qed.

Lemma handleAudioTranscription_with_lang r v :
  is_string v = false ->
  truthy (prop (js_or v (JObj [])) (js "lang")) = true ->
  handleAudioTranscription r v
  = ([], inl (js_error "TypeError" (js "get is not a function"))).
Proof.
  intros Hs Hl. unfold handleAudioTranscription.
  destruct v; try discriminate Hs; cbv zeta; rewrite Hl; reflexivity.
Qed.

(** C9 fails on the code: for the object the speech-to-text client
    returns, whose [lang] is present, [handleAudioTranscription] calls
    [langMapping.get], which a plain object does not have, and throws
    before it sets the input or arms the timer. *)
Theorem C9_lang_present_throws :
  handleAudioTranscription Sample.hi_there Sample.transcript
  = ([], inl (js_error "TypeError" (js "get is not a function")))
  /\ outcome (sttService.generateText Sample.all_up (JFile (js "a.wav")) JUndefined)
     = inr Sample.transcript.
Proof. split; reflexivity. Qed.

(** The timer armed by [handleAudioTranscription] runs the
    [handleSendMessage] of the render that received the transcript, whose
    [message] is still the earlier content of the input box: if that was
    blank, the automatic send does nothing. *)
Remark transcription_sends_the_earlier_input r env transcript s :
  message r = JStr s -> blank s = true ->
  exists cb,
    trace (handleAudioTranscription r (JStr transcript))
    = [SetMessage (JStr transcript); SetTimeout cb 100]
    /\ fire cb env = ([PreventDefault], inr tt).
Proof.
  intros Hm Hb. exists (CbSend r). split; [reflexivity|].
  now apply (handleSendMessage_blank r env s).
Qed.


(** ** The viseme log *)

Lemma quiet_handleSendMessage r env : only quiet (handleSendMessage r env).
Proof.
  unfold handleSendMessage, String_trim, apiClient.generateResponse, axios.post.
  only_tac; try reflexivity.
  apply only_generateAudioAndLipsync; reflexivity.
Qed.

Lemma quiet_handleAudioTranscription r v : only quiet (handleAudioTranscription r v).
Proof.
  unfold handleAudioTranscription, call_method. only_tac; reflexivity.
Qed.

Lemma quiet_languageEffect franc r : only quiet (languageEffect franc r).
Proof.
  unfold languageEffect, String_trim. only_tac; reflexivity.
Qed.

Lemma quiet_fire cb env : only quiet (fire cb env).
Proof.
  destruct cb; try (repeat constructor). apply quiet_handleSendMessage.
Qed.

Lemma Emits_quiet (e : Effect) : Emits e -> is_viseme_effect e = false.
Proof.
  assert (U : forall (m : M unit), only quiet m -> e ∈ trace m -> is_viseme_effect e = false).
  { intros m Hm He. unfold only in Hm. rewrite Forall_forall in Hm. now apply Hm. }
  destruct 1 as [r env e H|e H|r v e H|e H|r e H|r e H|e H|r e H|e H|r e H
                 |franc r e H|cb env e H|v| | |];
    try reflexivity; revert H; apply U.
  - apply quiet_handleSendMessage.
  - repeat constructor.
  - apply quiet_handleAudioTranscription.
  - repeat constructor.
  - repeat constructor.
  - unfold toggleAudio. destruct (isPlaying r); repeat constructor.
  - repeat constructor.
  - unfold playbackEffect. only_tac; reflexivity.
  - repeat constructor.
  - repeat constructor.
  - apply quiet_languageEffect.
  - apply quiet_fire.
Qed.

Lemma apply_quiet st e :
  is_viseme_effect e = false ->
  detectedVisemes (apply_effect st e) = detectedVisemes st
  /\ prevViseme (apply_effect st e) = prevViseme st.
Proof. destruct e; try discriminate; intros _; split; reflexivity. Qed.

Lemma consecutive_distinct_snoc (l : list jsstring) (v : jsstring) :
  consecutive_distinct l -> last l <> Some v -> consecutive_distinct (l ++ [v]).
Proof.
  intros Hl Hv i a b Ha Hb.
  destruct (decide (S i < length l)) as [Hi|Hi].
  - rewrite lookup_app_l in Ha by lia. rewrite lookup_app_l in Hb by lia.
    now apply (Hl i).
  - assert (Hlen : S i < length (l ++ [v])) by (eapply lookup_lt_Some; eauto).
    rewrite length_app in Hlen. simpl in Hlen.
    assert (Hi' : S i = length l) by lia.
    rewrite lookup_app_l in Ha by lia.
    rewrite lookup_app_r in Hb by lia.
    rewrite Hi', Nat.sub_diag in Hb. simpl in Hb. injection Hb as <-.
    intros ->. apply Hv. rewrite last_lookup.
    replace (pred (length l)) with i by lia. exact Ha.
Qed.

Lemma frame_log st viseme :
  detectedVisemes (run st (trace (analyzeAudio st viseme)))
  = (if bool_decide (Some viseme <> prevViseme st)
     then detectedVisemes st ++ [viseme] else detectedVisemes st)
  /\ prevViseme (run st (trace (analyzeAudio st viseme)))
     = (if bool_decide (Some viseme <> prevViseme st)
        then Some viseme else prevViseme st).
Proof.
  unfold analyzeAudio. rewrite bind_emit.
  destruct (bool_decide (Some viseme <> prevViseme st)); split; reflexivity.
Qed.

Lemma log_invariant_initial storage : log_invariant (initial_state storage).
Proof. split; [|reflexivity]. intros i a b Ha. discriminate Ha. Qed.

Lemma log_invariant_step st st' : log_invariant st -> Step st st' -> log_invariant st'.
Proof.
  intros [Hd Hp] Hs. inversion Hs as [st0 viseme|st0 e He]; subst.
  - destruct (frame_log st viseme) as [Hl Hv]. unfold log_invariant.
    rewrite Hl, Hv. case_bool_decide as Hne.
    + split; [|apply last_snoc].
      apply consecutive_distinct_snoc; [exact Hd|]. rewrite Hp. congruence.
    + now split.
  - destruct (apply_quiet st e (Emits_quiet e He)) as [Hl Hv].
    unfold log_invariant. now rewrite Hl, Hv.
Qed.

Lemma log_invariant_reachable st : Reachable st -> log_invariant st.
Proof.
  intros [storage H].
  apply (rtc_ind_r (R := Step) (fun s => log_invariant s) (initial_state storage)).
  - apply log_invariant_initial.
  - intros y z _ Hyz IH. now apply (log_invariant_step y z).
  - exact H.
Qed.

(** C5: in every state a session can reach, no two neighbouring entries of
    the viseme log are equal; [prevViseme] holds the last entry of the log;
    no step of a session removes or changes an entry (the log before a step
    is a prefix of the log after it); and a frame appends its sample
    exactly when the sample differs from the last entry of the log. *)
Theorem C5_viseme_log (st : State) :
  Reachable st ->
  consecutive_distinct (detectedVisemes st)
  /\ last (detectedVisemes st) = prevViseme st
  /\ (forall st', Step st st' -> detectedVisemes st `prefix_of` detectedVisemes st')
  /\ (forall viseme,
        detectedVisemes (run st (trace (analyzeAudio st viseme)))
        = if bool_decide (last (detectedVisemes st) = Some viseme)
          then detectedVisemes st
          else detectedVisemes st ++ [viseme]).
Proof.
  intros Hr. destruct (log_invariant_reachable st Hr) as [Hd Hp].
  split; [exact Hd|]. split; [exact Hp|]. split.
  - intros st' Hs. inversion Hs as [st0 viseme|st0 e He]; subst.
    + destruct (frame_log st viseme) as [-> _].
      case_bool_decide; [now apply prefix_app_r|reflexivity].
    + destruct (apply_quiet st e (Emits_quiet e He)) as [-> _]. reflexivity.
  - intros viseme. destruct (frame_log st viseme) as [-> _]. rewrite Hp.
    repeat case_bool_decide; congruence.
Qed.

Lemma three_frames_reachable : Reachable Sample.three_frames.
Proof.
  exists ∅. unfold Sample.three_frames. cbv zeta.
  eapply rtc_l; [apply StepFrame|].
  eapply rtc_l; [apply StepFrame|].
  eapply rtc_l; [apply StepFrame|].
  apply rtc_refl.
Defined.

Lemma C5_viseme_log_witness :
  consecutive_distinct [js "viseme_sil"; js "viseme_aa"].
Proof.
  exact (proj1 (C5_viseme_log Sample.three_frames three_frames_reachable)).
Defined.

(** ** Clients and turns, whatever the services answer *)


Lemma generateAudio_returns env text id language speaker :
  ttsService.generateAudio env text id language speaker
  = if converts text && converts (default_arg language (JStr (js "en")))
       && converts id
    then ([HttpPost TtsApi
             (ttsService.request_body text id
                (default_arg language (JStr (js "en")))
                (default_arg speaker (JStr (js "female-pt-4"))))],
          inr match remote env TtsApi
                      (ttsService.request_body text id
                         (default_arg language (JStr (js "en")))
                         (default_arg speaker (JStr (js "female-pt-4")))) with
              | HttpOk d => d
              | HttpFail e => sentinel (failure_message e)
              end)
    else ([], inr (sentinel (JStr (js "Cannot convert object to primitive value")))).
Proof.
  unfold ttsService.generateAudio, axios.post. cbv zeta.
  destruct (converts text && converts _ && converts id) eqn:Hc.
  - destruct (log_line_built _ _ _ Hc) as [line ->]. rewrite bind_ret.
    destruct (remote env TtsApi _) as [d|e]; [reflexivity|].
    unfold failure_message, js_or.
    destruct e as [m [d|]]; cbn -[js default_arg].
    + destruct (truthy (prop d (js "detail"))) eqn:E;
        vm_compute in E |- *; rewrite E; reflexivity.
    + reflexivity.
  - rewrite (log_line_throws _ _ _ Hc). reflexivity.
Qed.

(** How [generateAudioAndLipsync] ends when a language is given: without
    a request, with a request and an error, or with a request and the
    audio reference set. *)
Lemma generateAudioAndLipsync_cases env text message audios lang :
  truthy lang = true ->
  let post := HttpPost TtsApi
                (ttsService.request_body text (newAudioId env) lang speaker_default) in
  (converts text && converts lang = false
   /\ exists err, truthy err = true
        /\ generateAudioAndLipsync env text message audios lang
           = ([audio_notice; SetError err; SetNotification JNull], inr JNull))
  \/ (converts text && converts lang = true
      /\ exists err, truthy err = true
           /\ generateAudioAndLipsync env text message audios lang
              = ([audio_notice; post; SetError err; SetNotification JNull], inr JNull))
  \/ (converts text && converts lang = true
      /\ exists result id,
           remote env TtsApi
             (ttsService.request_body text (newAudioId env) lang speaker_default)
           = HttpOk result
           /\ converted (prop result (js "audioId")) = Some id
           /\ generateAudioAndLipsync env text message audios lang
              = ([audio_notice; post; SetAudioFile (js "/audios/" ++ id ++ js ".mp3")],
                 inr (prop result (js "audioPath")))).
Proof.
  intros Hl post. subst post.
  destruct (converts text && converts lang) eqn:Hc.
  2:{ left. split; [reflexivity|].
      exists (JStr (js "Cannot convert object to primitive value")).
      split; [reflexivity|]. now apply generateAudioAndLipsync_unsent. }
  right.
  assert (Hc' : converts text && converts lang && converts (newAudioId env) = true)
    by now rewrite newAudioId_converts, andb_true_r.
  destruct (remote env TtsApi
              (ttsService.request_body text (newAudioId env) lang speaker_default))
    as [result|e] eqn:H.
  - destruct (nullish result) eqn:Hn.
    + left. split; [reflexivity|].
      exists (JStr (js "Erreur lors de la génération audio")).
      split; [reflexivity|].
      unfold generateAudioAndLipsync.
      rewrite Hl, bind_emit, bind_ret, (generateAudio_ok _ _ _ _ _ Hl Hc' H), bind_val.
      unfold get_prop. rewrite Hn. reflexivity.
    + destruct (truthy (prop result (js "error"))) eqn:He.
      * left. split; [reflexivity|].
        exists (js_or (prop result (js "message"))
                  (JStr (js "Erreur lors de la génération audio"))).
        split; [unfold js_or; now destruct (truthy (prop result (js "message"))) eqn:E|].
        unfold generateAudioAndLipsync.
        rewrite Hl, bind_emit, bind_ret, (generateAudio_ok _ _ _ _ _ Hl Hc' H), bind_val.
        rewrite !(get_prop_defined _ _ Hn), bind_ret, He, bind_ret, bind_emit.
        reflexivity.
      * destruct (converted (prop result (js "audioId"))) as [id|] eqn:Hid.
        -- right. split; [reflexivity|]. exists result, id.
           split; [reflexivity|]. split; [exact Hid|].
           now apply generateAudioAndLipsync_ok.
        -- left. split; [reflexivity|].
           exists (JStr (js "Erreur lors de la génération audio")).
           split; [reflexivity|].
           unfold generateAudioAndLipsync.
           rewrite Hl, bind_emit, bind_ret, (generateAudio_ok _ _ _ _ _ Hl Hc' H), bind_val.
           rewrite !(get_prop_defined _ _ Hn), bind_ret, He.
           rewrite (audio_path_throws _ Hid). reflexivity.
  - left. split; [reflexivity|].
    exists (js_or (failure_message e)
              (JStr (js "Erreur lors de la génération audio"))).
    split; [unfold js_or; now destruct (truthy (failure_message e)) eqn:E|].
    now apply generateAudioAndLipsync_fail.
Qed.

Lemma generateAudioAndLipsync_no_language env text message audios lang :
  truthy lang = false ->
  generateAudioAndLipsync env text message audios lang
  = ([audio_notice], inl (js_error "ReferenceError" (js "lang is not defined"))).
Proof.
  intros Hl. unfold generateAudioAndLipsync. rewrite Hl, bind_emit. reflexivity.
Qed.

Lemma truthy_js_or_default (v : JsVal) (s : string) :
  truthy (JStr (js s)) = true -> truthy (js_or v (JStr (js s))) = true.
Proof. intros H. unfold js_or. now destruct (truthy v) eqn:E. Qed.

(** A turn on an input that is not blank: it never throws, starts with
    [turn_start], ends with [setIsLoading(false)], and in between ends in
    one of the six ways of [TurnEnd]. *)
Lemma handleSendMessage_cases r env s :
  message r = JStr s -> blank s = false ->
  exists response ending,
    outcome (apiClient.generateResponse env (chat_payload r)) = inr response
    /\ TurnEnd r env response ending
    /\ handleSendMessage r env
       = (turn_start r ++ ending ++ [SetIsLoading false], inr tt).
Proof.
  intros Hm Hb.
  destruct (generateResponse_returns env (chat_payload r)) as [response Hr].
  exists response.
  unfold handleSendMessage. rewrite Hm. cbn [String_trim].
  rewrite bind_emit, bind_ret, (truthy_trim _ Hb). cbn [negb].
  rewrite bind_emit, Hr, bind_val. unfold turn_start. rewrite Hm.
  destruct (nullish response) eqn:Hn.
  - (* the reply is null or undefined *)
    eexists. split; [reflexivity|]. split.
    + apply (EndNoReply r env response
               (js_or (JStr (js "Cannot read properties of " ++ to_string response))
                      (JStr (js "Erreur lors de la génération de la réponse ou de l'audio.")))).
      * exact Hn.
      * destruct response; try discriminate Hn; reflexivity.
    + unfold get_prop. rewrite Hn. reflexivity.
  - rewrite (get_prop_defined _ _ Hn), bind_ret.
    destruct (truthy (detectedLang r)) eqn:Hl.
    + destruct (generateAudioAndLipsync_cases env (prop response (js "text"))
                  (JStr s) (audios r) (detectedLang r) Hl)
        as [(Hcv & err & Herr & ->)|[(Hcv & err & Herr & ->)
            |(Hcv & result & id & Hres & Hid & ->)]].
      * eexists. split; [reflexivity|]. split.
        -- apply (EndSpeechNotSent r env response err); try assumption.
           apply andb_false_iff in Hcv. unfold converts in Hcv.
           destruct Hcv as [Hcv|Hcv]; [left|right];
             now destruct (converted _).
        -- reflexivity.
      * eexists. split; [reflexivity|]. split.
        -- apply (EndSpeechFailed r env response err); assumption.
        -- reflexivity.
      * destruct (truthy (prop result (js "audioPath"))) eqn:Hp.
        -- eexists. split; [reflexivity|]. split.
           ++ apply (EndSpoken r env response result id); assumption.
           ++ rewrite bind_val, Hp. reflexivity.
        -- eexists. split; [reflexivity|]. split.
           ++ apply (EndNoPath r env response result id); assumption.
           ++ rewrite bind_val, Hp. reflexivity.
    + rewrite (generateAudioAndLipsync_no_language _ _ _ _ _ Hl).
      eexists. split; [reflexivity|]. split.
      * apply (EndNoLanguage r env response
                 (js_or (JStr (js "lang is not defined"))
                    (JStr (js "Erreur lors de la génération de la réponse ou de l'audio.")))).
        -- exact Hn.
        -- exact Hl.
        -- reflexivity.
      * reflexivity.
Qed.

(** X1: [apiClient.generateResponse] never throws and sends exactly one
    request, the payload as given; it returns the response body, or, when
    axios rejects, the sentinel whose message is the server's [detail] if
    that is truthy and the error's own message otherwise. *)
Theorem X1_generateResponse_contract env payload :
  apiClient.generateResponse env payload
  = ([HttpPost ChatApi payload],
     inr match remote env ChatApi payload with
         | HttpOk d => d
         | HttpFail e => sentinel (failure_message e)
         end).
Proof.
  destruct (remote env ChatApi payload) eqn:E.
  - now apply generateResponse_ok.
  - now apply generateResponse_fail.
Qed.

(** X2: [ttsService.generateAudio] never throws.  It first builds its
    log line out of the text, the language and the id: when one of the
    three does not convert to a string it sends nothing and returns the
    error sentinel.  Otherwise it sends exactly one request and returns
    the response body, or the error sentinel when axios rejects.  The
    language logged and sent is the one given unless that is [undefined],
    in which case it is "en" ([null] is sent as it is); likewise the
    speaker defaults to "female-pt-4". *)
Theorem X2_generateAudio_contract env text id language speaker :
  let language' := default_arg language (JStr (js "en")) in
  let body := ttsService.request_body text id language'
                (default_arg speaker (JStr (js "female-pt-4"))) in
  let m := ttsService.generateAudio env text id language speaker in
  (converts text && converts language' && converts id = true ->
   m = ([HttpPost TtsApi body],
        inr match remote env TtsApi body with
            | HttpOk d => d
            | HttpFail e => sentinel (failure_message e)
            end))
  /\ (converts text && converts language' && converts id = false ->
      trace m = [] /\ exists msg, outcome m = inr (sentinel msg))
  /\ (language <> JUndefined -> prop body (js "lang") = language)
  /\ (language = JUndefined -> prop body (js "lang") = JStr (js "en")).
Proof.
  cbv zeta. rewrite generateAudio_returns.
  split; [now intros ->|]. split; [intros ->; split; [reflexivity|eauto]|]. split.
  - intros H. destruct language; try reflexivity. now contradict H.
  - intros ->. reflexivity.
Qed.

Lemma X2_generateAudio_contract_witness :
  ttsService.generateAudio Sample.all_up (JStr (js "Hello")) (JStr (js "audio-1"))
    JUndefined JUndefined
  = ([HttpPost TtsApi
        (ttsService.request_body (JStr (js "Hello")) (JStr (js "audio-1"))
           (JStr (js "en")) (JStr (js "female-pt-4")))],
     inr Sample.rendered)
  /\ trace (ttsService.generateAudio Sample.all_up
              (JObj [(js "toString", JNum 0)]) (JStr (js "audio-1"))
              JUndefined JUndefined) = []
  /\ prop (ttsService.request_body JUndefined (JStr (js "audio-1"))
             (default_arg JNull (JStr (js "en")))
             (default_arg JUndefined (JStr (js "female-pt-4")))) (js "lang") = JNull.
Proof.
  split; [|split].
  - apply (proj1 (X2_generateAudio_contract Sample.all_up (JStr (js "Hello"))
                    (JStr (js "audio-1")) JUndefined JUndefined)).
    reflexivity.
  - apply (proj1 (proj2 (X2_generateAudio_contract Sample.all_up
                           (JObj [(js "toString", JNum 0)])
                           (JStr (js "audio-1")) JUndefined JUndefined))).
    reflexivity.
  - apply (proj1 (proj2 (proj2 (X2_generateAudio_contract Sample.all_up JUndefined
                           (JStr (js "audio-1")) JNull JUndefined)))).
    discriminate.
Defined.

(** X3: [generateAudioAndLipsync].  With a falsy [detectedLang] it throws
    (the unbound [lang]) before any request and sets no audio reference.
    Otherwise it does not throw.  It sends one speech request, for the
    text, the id [audio-<now>] and that language, unless the text or the
    language does not convert to a string, in which case the speech client
    sends nothing.  Either it returns [null], having raised an error
    notification and set no audio reference; or the service answered with
    a body whose [audioId] converts to a string, it set the audio
    reference once to [/audios/<that string>.mp3], raised no error, and
    returns the answer's [audioPath]. *)
Theorem X3_generateAudioAndLipsync_outcomes env text message audios lang :
  let m := generateAudioAndLipsync env text message audios lang in
  let request := ttsService.request_body text (newAudioId env) lang speaker_default in
  (truthy lang = false ->
   count is_network_call (trace m) = 0%nat /\ count is_audio_update (trace m) = 0%nat
   /\ exists err, outcome m = inl err)
  /\ (truthy lang = true ->
      List.filter is_network_call (trace m)
      = (if converts text && converts lang then [HttpPost TtsApi request] else [])
      /\ ((outcome m = inr JNull
           /\ count is_audio_update (trace m) = 0%nat
           /\ existsb is_error_notification (trace m) = true)
          \/ (exists result id,
                remote env TtsApi request = HttpOk result
                /\ converted (prop result (js "audioId")) = Some id
                /\ outcome m = inr (prop result (js "audioPath"))
                /\ List.filter is_audio_update (trace m)
                   = [SetAudioFile (js "/audios/" ++ id ++ js ".mp3")]
                /\ existsb is_error_notification (trace m) = false))).
Proof.
  cbv zeta. split; intros Hl.
  - rewrite (generateAudioAndLipsync_no_language _ _ _ _ _ Hl).
    repeat split; eauto.
  - destruct (generateAudioAndLipsync_cases env text message audios lang Hl)
      as [(-> & err & Herr & ->)|[(-> & err & Herr & ->)
          |(-> & result & id & Hres & Hid & ->)]].
    + split; [reflexivity|]. left. repeat split.
      cbn [trace fst existsb is_error_notification]. now rewrite Herr.
    + split; [reflexivity|]. left. repeat split.
      cbn [trace fst existsb is_error_notification]. now rewrite Herr.
    + split; [reflexivity|]. right. exists result, id. repeat split; assumption.
Qed.

Lemma X3_generateAudioAndLipsync_outcomes_witness :
  (exists err,
     outcome (generateAudioAndLipsync Sample.all_up (JStr (js "Hello")) JUndefined []
                (JStr [])) = inl err)
  /\ List.filter is_network_call
       (trace (generateAudioAndLipsync Sample.all_up (JStr (js "Hello")) JUndefined []
                 (JStr (js "fr"))))
     = [HttpPost TtsApi
          (ttsService.request_body (JStr (js "Hello")) (newAudioId Sample.all_up)
             (JStr (js "fr")) speaker_default)]
  /\ List.filter is_network_call
       (trace (generateAudioAndLipsync Sample.all_up
                 (JObj [(js "toString", JNum 0)]) JUndefined [] (JStr (js "fr"))))
     = [].
Proof.
  split; [|split].
  - apply (proj1 (X3_generateAudioAndLipsync_outcomes Sample.all_up
                    (JStr (js "Hello")) JUndefined [] (JStr []))).
    reflexivity.
  - apply (proj2 (X3_generateAudioAndLipsync_outcomes Sample.all_up
                    (JStr (js "Hello")) JUndefined [] (JStr (js "fr")))).
    reflexivity.
  - apply (proj2 (X3_generateAudioAndLipsync_outcomes Sample.all_up
                    (JObj [(js "toString", JNum 0)]) JUndefined [] (JStr (js "fr")))).
    reflexivity.
Defined.

(** X4: for an input that is not blank, whatever the services answer,
    [handleSendMessage] does not throw, starts with the effects of
    [turn_start] and ends with [setIsLoading(false)]; once its updates are
    applied the loading indicator is off, the input box is empty, and the
    message list is the former one followed by the user's message and at
    most one more message. *)
Theorem X4_turn_completes r env s :
  message r = JStr s -> blank s = false ->
  outcome (handleSendMessage r env) = inr tt
  /\ (exists rest,
        trace (handleSendMessage r env) = turn_start r ++ rest ++ [SetIsLoading false])
  /\ forall st,
       isLoading (run st (trace (handleSendMessage r env))) = false
       /\ message (run st (trace (handleSendMessage r env))) = JStr []
       /\ exists reply,
            length reply <= 1
            /\ messages (run st (trace (handleSendMessage r env)))
               = messages st ++ {| text := JStr s; sender := js "user" |} :: reply.
Proof.
  intros Hm Hb.
  destruct (handleSendMessage_cases r env s Hm Hb) as (response & ending & _ & Hend & ->).
  split; [reflexivity|]. split; [eauto|].
  intros st. unfold turn_start. rewrite Hm.
  destruct Hend; (split; [reflexivity|]); (split; [reflexivity|]).
  1-5: exists []; split; [simpl; lia|reflexivity].
  eexists [_]. split; [simpl; lia|].
  cbn -[js]. now rewrite <- app_assoc.
Qed.

Lemma X4_turn_completes_witness :
  outcome (handleSendMessage Sample.hi_there Sample.chat_down) = inr tt
  /\ isLoading (run Sample.long_conversation
                    (trace (handleSendMessage Sample.hi_there Sample.chat_down)))
     = false.
Proof.
  pose proof (X4_turn_completes Sample.hi_there Sample.chat_down (js "Hi there")
                eq_refl eq_refl) as (Hout & _ & Hst).
  split; [exact Hout|]. exact (proj1 (Hst Sample.long_conversation)).
Defined.

(** X5: a turn on an input that is not blank ends in one of two ways,
    whatever the services answer: exactly one avatar message is appended,
    after exactly one update of the audio reference and with no error
    notification; or no avatar message is appended and an error
    notification is raised. *)
Theorem X5_reply_or_error r env s :
  message r = JStr s -> blank s = false ->
  let t := trace (handleSendMessage r env) in
  (count is_avatar_append t = 1%nat
   /\ count is_audio_update t = 1%nat
   /\ precedes is_audio_update is_avatar_append t = true
   /\ existsb is_error_notification t = false)
  \/ (count is_avatar_append t = 0%nat
      /\ existsb is_error_notification t = true).
Proof.
  intros Hm Hb t. subst t.
  destruct (handleSendMessage_cases r env s Hm Hb) as (response & ending & _ & Hend & ->).
  unfold turn_start. rewrite Hm.
  destruct Hend as [err _ Herr|err _ _ Herr|err _ _ Herr|err _ _ _ Herr
                    |result id _ _ _ _ _|result id _ _ _ _ _].
  1-4: right; split; [reflexivity|];
       cbn [trace fst app existsb is_error_notification orb]; now rewrite Herr.
  - right. split; reflexivity.
  - left. repeat split; reflexivity.
Qed.

Lemma X5_reply_or_error_witness :
  count is_avatar_append (trace (handleSendMessage Sample.hi_there Sample.tts_no_path))
  = 0%nat
  /\ existsb is_error_notification
       (trace (handleSendMessage Sample.hi_there Sample.tts_no_path)) = true.
Proof.
  destruct (X5_reply_or_error Sample.hi_there Sample.tts_no_path (js "Hi there")
              eq_refl eq_refl) as [(H & _)|H].
  - discriminate H.
  - exact H.
Defined.

(** X6: the requests of a turn on an input that is not blank are the chat
    request alone, or the chat request followed by one speech request;
    nothing is sent to the speech-to-text service.  The speech request
    carries the [text] of what the chat client returned, the render's
    detected language and the id [audio-<now>]. *)
Theorem X6_requests_of_a_turn r env s :
  message r = JStr s -> blank s = false ->
  exists response,
    outcome (apiClient.generateResponse env (chat_payload r)) = inr response
    /\ (List.filter is_network_call (trace (handleSendMessage r env))
        = [HttpPost ChatApi (chat_payload r)]
        \/ List.filter is_network_call (trace (handleSendMessage r env))
           = [HttpPost ChatApi (chat_payload r);
              HttpPost TtsApi (turn_tts_request r env response)])
    /\ prop (turn_tts_request r env response) (js "text") = prop response (js "text")
    /\ prop (turn_tts_request r env response) (js "lang") = detectedLang r
    /\ prop (turn_tts_request r env response) (js "audio_id")
       = JStr (js "audio-" ++ decimal (Date_now env)).
Proof.
  intros Hm Hb.
  destruct (handleSendMessage_cases r env s Hm Hb) as (response & ending & Hr & Hend & ->).
  exists response. split; [exact Hr|]. split; [|repeat split].
  unfold turn_start.
  destruct Hend; [left|left|right|left|right|right]; reflexivity.
Qed.

Lemma X6_requests_of_a_turn_witness :
  exists response,
    outcome (apiClient.generateResponse Sample.all_up (chat_payload Sample.hi_there))
    = inr response
    /\ prop (turn_tts_request Sample.hi_there Sample.all_up response) (js "lang")
       = JStr (js "en").
Proof.
  destruct (X6_requests_of_a_turn Sample.hi_there Sample.all_up (js "Hi there")
              eq_refl eq_refl) as (response & Hr & _ & _ & Hl & _).
  exists response. split; [exact Hr|exact Hl].
Defined.

(** X7: what [handleAudioTranscription] does with every result.  A string
    is put in the input box and a 100 ms timer armed.  A result that is not
    a string and has a truthy [lang] makes it throw with nothing done.  Any
    other result puts its [text] (the empty string when falsy) in the input
    box and arms the timer; in particular a falsy result (null, undefined,
    the empty string) sets the empty string and still arms the timer. *)
Theorem X7_transcription_outcomes r v :
  let source := js_or v (JObj []) in
  (is_string v = true ->
   handleAudioTranscription r v = ([SetMessage v; SetTimeout (CbSend r) 100], inr tt))
  /\ (is_string v = false -> truthy (prop source (js "lang")) = true ->
      trace (handleAudioTranscription r v) = []
      /\ exists err, outcome (handleAudioTranscription r v) = inl err)
  /\ (is_string v = false -> truthy (prop source (js "lang")) = false ->
      handleAudioTranscription r v
      = ([SetMessage (js_or (prop source (js "text")) (JStr []));
          SetTimeout (CbSend r) 100], inr tt))
  /\ (truthy v = false ->
      handleAudioTranscription r v
      = ([SetMessage (JStr []); SetTimeout (CbSend r) 100], inr tt)).
Proof.
  cbv zeta. split; [|split; [|split]].
  - destruct v; try discriminate. reflexivity.
  - intros Hs Hl. rewrite (handleAudioTranscription_with_lang r v Hs Hl). eauto.
  - apply handleAudioTranscription_without_lang.
  - destruct v as [| |[]|n|[|c s]| | | |]; try discriminate; try reflexivity.
    intros Hn. cbn in Hn. apply negb_false_iff, Z.eqb_eq in Hn. subst n. reflexivity.
Qed.

Lemma X7_transcription_outcomes_witness :
  handleAudioTranscription Sample.hi_there (JStr (js "bonjour"))
  = ([SetMessage (JStr (js "bonjour")); SetTimeout (CbSend Sample.hi_there) 100], inr tt)
  /\ trace (handleAudioTranscription Sample.hi_there Sample.transcript) = []
  /\ handleAudioTranscription Sample.hi_there
       (sentinel (JStr (js "Échec lors de la transcription de l'audio")))
     = ([SetMessage (JStr []); SetTimeout (CbSend Sample.hi_there) 100], inr tt)
  /\ handleAudioTranscription Sample.hi_there JNull
     = ([SetMessage (JStr []); SetTimeout (CbSend Sample.hi_there) 100], inr tt).
Proof.
  split; [|split; [|split]].
  - apply (proj1 (X7_transcription_outcomes Sample.hi_there (JStr (js "bonjour")))).
    reflexivity.
  - apply (proj1 (proj2 (X7_transcription_outcomes Sample.hi_there Sample.transcript)));
      reflexivity.
  - apply (proj1 (proj2 (proj2 (X7_transcription_outcomes Sample.hi_there
             (sentinel (JStr (js "Échec lors de la transcription de l'audio")))))));
      reflexivity.
  - apply (proj2 (proj2 (proj2 (X7_transcription_outcomes Sample.hi_there JNull)))).
    reflexivity.
Defined.

(** X8: every timer [handleAudioTranscription] arms is of 100 ms and its
    callback is the [handleSendMessage] of the render that received the
    result.  When it fires, a blank input of that render sends nothing,
    and an input that is not blank sends one chat request, in whose body
    the last entry of [history] has the role "user" and that input as its
    content, after at most 5 earlier entries: the transcript is not what
    is sent. *)
Theorem X8_voice_send_uses_render_input r v env cb ms :
  SetTimeout cb ms ∈ trace (handleAudioTranscription r v) ->
  ms = 100%Z
  /\ fire cb env = handleSendMessage r env
  /\ (forall s, message r = JStr s -> blank s = true ->
        count is_network_call (trace (fire cb env)) = 0%nat)
  /\ (forall s, message r = JStr s -> blank s = false ->
        exists earlier,
          (length earlier <= 5)%nat
          /\ List.filter is_chat_request (trace (fire cb env))
             = [HttpPost ChatApi
                  (JObj [(js "history",
                          JArr (earlier
                                ++ [JObj [(js "role", JStr (js "user"));
                                          (js "content", JStr s)]]));
                         (js "detectedLanguage", detectedLang r)])]).
Proof.
  intros Hin.
  assert (Hcb : cb = CbSend r /\ ms = 100%Z).
  { destruct (is_string v) eqn:Hs.
    - destruct v; try discriminate Hs. cbn in Hin.
      rewrite !elem_of_cons in Hin.
      destruct Hin as [[=]|[[= -> ->]|Hin]]; [auto|]. now apply elem_of_nil in Hin.
    - destruct (truthy (prop (js_or v (JObj [])) (js "lang"))) eqn:Hl.
      + rewrite (handleAudioTranscription_with_lang r v Hs Hl) in Hin.
        now apply elem_of_nil in Hin.
      + rewrite (handleAudioTranscription_without_lang r v Hs Hl) in Hin.
        cbn in Hin. rewrite !elem_of_cons in Hin.
        destruct Hin as [[=]|[[= -> ->]|Hin]]; [auto|]. now apply elem_of_nil in Hin. }
  destruct Hcb as [-> ->]. split; [reflexivity|]. split; [reflexivity|]. split.
  - intros s Hm Hb. cbn [fire]. now rewrite (handleSendMessage_blank r env s Hm Hb).
  - intros s Hm Hb. cbn [fire].
    rewrite (chat_request_of_turn r env s Hm Hb), chat_payload_entries, Hm.
    eexists. split; [|reflexivity].
    rewrite length_map, length_drop. lia.
Qed.

Lemma X8_voice_send_uses_render_input_witness :
  exists earlier,
    (length earlier <= 5)%nat
    /\ List.filter is_chat_request
         (trace (fire (CbSend Sample.hi_there) Sample.all_up))
       = [HttpPost ChatApi
            (JObj [(js "history",
                    JArr (earlier
                          ++ [JObj [(js "role", JStr (js "user"));
                                    (js "content", JStr (js "Hi there"))]]));
                   (js "detectedLanguage", detectedLang Sample.hi_there)])].
Proof.
  apply (proj2 (proj2 (proj2
           (X8_voice_send_uses_render_input Sample.hi_there (JStr (js "bonjour"))
              Sample.all_up (CbSend Sample.hi_there) 100
              ltac:(cbn; rewrite !elem_of_cons; auto))))
           (js "Hi there")); reflexivity.
Defined.

(** ** What the effects of the component obey *)

Lemma disciplined_generateAudioAndLipsync env text message audios lang :
  only disciplined (generateAudioAndLipsync env text message audios lang).
Proof.
  unfold only. destruct (truthy lang) eqn:Hl.
  - destruct (generateAudioAndLipsync_cases env text message audios lang Hl)
      as [(_ & err & _ & ->)|[(_ & err & _ & ->)|(_ & result & id & _ & _ & ->)]];
      repeat constructor.
  - rewrite (generateAudioAndLipsync_no_language _ _ _ _ _ Hl). repeat constructor.
Qed.

Lemma disciplined_handleSendMessage r env : only disciplined (handleSendMessage r env).
Proof.
  unfold handleSendMessage, String_trim, apiClient.generateResponse, axios.post.
  only_tac; try exact I.
  apply disciplined_generateAudioAndLipsync.
Qed.

Lemma disciplined_handleAudioTranscription r v :
  only disciplined (handleAudioTranscription r v).
Proof.
  destruct (is_string v) eqn:Hs.
  - destruct v; try discriminate Hs. repeat constructor.
  - destruct (truthy (prop (js_or v (JObj [])) (js "lang"))) eqn:Hl.
    + unfold only. rewrite (handleAudioTranscription_with_lang r v Hs Hl). constructor.
    + unfold only. rewrite (handleAudioTranscription_without_lang r v Hs Hl).
      repeat constructor.
Qed.

Lemma disciplined_languageEffect franc r : only disciplined (languageEffect franc r).
Proof.
  unfold languageEffect, String_trim. only_tac; try exact I.
  all: apply detectLanguage_supported.
Qed.

Lemma Emits_disciplined (e : Effect) : Emits e -> disciplined e.
Proof.
  assert (U : forall (m : M unit), only disciplined m -> e ∈ trace m -> disciplined e).
  { intros m Hm He. unfold only in Hm. rewrite Forall_forall in Hm. now apply Hm. }
  destruct 1 as [r env e H|e H|r v e H|e H|r e H|r e H|e H|r e H|e H|r e H
                 |franc r e H|cb env e H|v| | |];
    try exact I; revert H; apply U.
  - apply disciplined_handleSendMessage.
  - repeat constructor.
  - apply disciplined_handleAudioTranscription.
  - repeat constructor.
  - repeat constructor.
  - unfold toggleAudio. destruct (isPlaying r); repeat constructor.
  - repeat constructor.
  - unfold playbackEffect. only_tac; exact I.
  - repeat constructor.
  - repeat constructor.
  - apply disciplined_languageEffect.
  - destruct cb; try (repeat constructor). apply disciplined_handleSendMessage.
Qed.

Lemma frame_cells st viseme :
  let st' := run st (trace (analyzeAudio st viseme)) in
  detectedLang st' = detectedLang st /\ theme st' = theme st
  /\ audioFile st' = audioFile st /\ messages st' = messages st
  /\ localStorage st' = localStorage st.
Proof.
  unfold analyzeAudio. rewrite bind_emit.
  destruct (bool_decide (Some viseme <> prevViseme st)); repeat split.
Qed.

Lemma next_theme_in (t : jsstring) : next_theme t ∈ themes.
Proof.
  unfold next_theme, themes. repeat case_bool_decide; rewrite !elem_of_cons; auto.
Qed.

Lemma cells_invariant_initial storage : cells_invariant (initial_state storage).
Proof.
  repeat split.
  - unfold themes. cbn. rewrite !elem_of_cons. auto.
  - constructor.
Qed.

Lemma cells_invariant_step st st' :
  cells_invariant st -> Step st st' -> cells_invariant st'.
Proof.
  intros (Hl & Ht & Ha) Hs. inversion Hs as [st0 viseme|st0 e He]; subst.
  - pose proof (frame_cells st viseme) as H. cbv zeta in H.
    destruct H as (El & Et & Ea & _). unfold cells_invariant.
    now rewrite El, Et, Ea.
  - apply Emits_disciplined in He.
    destruct e; try (now repeat split).
    repeat split; [exact Hl| |exact Ha]. apply next_theme_in.
Qed.

Lemma cells_invariant_reachable st : Reachable st -> cells_invariant st.
Proof.
  intros [storage H].
  apply (rtc_ind_r (R := Step) (fun s => cells_invariant s) (initial_state storage)).
  - apply cells_invariant_initial.
  - intros y z _ Hyz IH. now apply (cells_invariant_step y z).
  - exact H.
Qed.

(** X9: in every state a session can reach the detected language is one
    of "en", "fr", "ar"; it is truthy, so [generateAudioAndLipsync] called
    with it never takes the branch that throws. *)
Theorem X9_detected_language_supported st :
  Reachable st ->
  detectedLang st ∈ supported_tags
  /\ truthy (detectedLang st) = true
  /\ forall env text message audios,
       exists v,
         outcome (generateAudioAndLipsync env text message audios (detectedLang st))
         = inr v.
Proof.
  intros Hr. destruct (cells_invariant_reachable st Hr) as (Hl & _ & _).
  apply is_supported_tags in Hl.
  assert (Ht : truthy (detectedLang st) = true).
  { unfold supported_tags in Hl. rewrite !elem_of_cons in Hl.
    destruct Hl as [->|[->|[->|H]]]; try reflexivity. now apply elem_of_nil in H. }
  split; [exact Hl|]. split; [exact Ht|].
  intros env text message audios.
  destruct (generateAudioAndLipsync_cases env text message audios _ Ht)
    as [(_ & err & _ & ->)|[(_ & err & _ & ->)|(_ & result & id & _ & _ & ->)]];
    eauto.
Qed.

(** Typing reaches a state; so does applying, in order, effects that the
    component emits. *)
Lemma typed_reachable (txt : string) : Reachable (Sample.typed txt).
Proof.
  exists ∅. eapply rtc_l; [|apply rtc_refl].
  exact (StepEffect (initial_state ∅) _ (EmitsInput (js txt))).
Defined.

Lemma run_reachable (t : list Effect) (st : State) :
  Reachable st -> Forall Emits t -> Reachable (run st t).
Proof.
  revert st. induction t as [|e t IH]; intros st [storage H] Ht; [now exists storage|].
  apply Forall_cons in Ht as [He Ht].
  apply (IH (apply_effect st e)); [|exact Ht].
  exists storage. eapply rtc_r; [exact H|]. now apply StepEffect.
Defined.

(** The language effect of the render in which French has been typed sets
    the detected language to "fr". *)
Lemma french_detected_reachable : Reachable french_detected.
Proof.
  apply run_reachable; [apply typed_reachable|].
  apply Forall_forall. intros e He. exact (EmitsLanguage franc_fra bonjour e He).
Defined.

Lemma X9_detected_language_supported_witness :
  detectedLang french_detected = JStr (js "fr")
  /\ detectedLang french_detected ∈ supported_tags
  /\ truthy (detectedLang french_detected) = true.
Proof.
  destruct (X9_detected_language_supported french_detected french_detected_reachable)
    as (H1 & H2 & _).
  split; [reflexivity|]. split; assumption.
Defined.

(** X10: a step of a session leaves the message list as it is, appends
    one message to it, or empties it; no message is ever changed, removed
    singly, or reordered. *)
Theorem X10_history_grows_or_resets st st' :
  Step st st' ->
  messages st' = messages st
  \/ (exists m, messages st' = messages st ++ [m])
  \/ messages st' = [].
Proof.
  intros Hs. inversion Hs as [st0 viseme|st0 e He]; subst.
  - left. pose proof (frame_cells st viseme) as H. cbv zeta in H. tauto.
  - apply Emits_disciplined in He.
    destruct e; try (left; reflexivity).
    + right. right. exact He.
    + right. left. eauto.
Qed.

Lemma reset_step st : Step st (apply_effect st (SetMessages [])).
Proof.
  apply StepEffect, EmitsReset. cbn. rewrite !elem_of_cons. auto.
Defined.

Lemma X10_history_grows_or_resets_witness :
  messages (apply_effect Sample.long_conversation (SetMessages []))
  = messages Sample.long_conversation
  \/ (exists m, messages (apply_effect Sample.long_conversation (SetMessages []))
                = messages Sample.long_conversation ++ [m])
  \/ messages (apply_effect Sample.long_conversation (SetMessages [])) = [].
Proof.
  exact (X10_history_grows_or_resets _ _ (reset_step Sample.long_conversation)).
Defined.

(** X11: in every state a session can reach the audio reference is the
    empty string or of the form [/audios/<id>.mp3]; the playback effect
    does nothing exactly when it is empty. *)
Theorem X11_audio_reference_shape st :
  Reachable st ->
  (audioFile st = []
   \/ exists id, audioFile st = js "/audios/" ++ id ++ js ".mp3")
  /\ (audioFile st = [] <-> trace (playbackEffect st) = []).
Proof.
  intros Hr. destruct (cells_invariant_reachable st Hr) as (_ & _ & Ha).
  unfold playbackEffect. destruct Ha as [|id].
  - split; [now left|]. split; reflexivity.
  - split; [right; now exists id|].
    rewrite audio_path_truthy. cbn [negb trace emit fst].
    split; [|discriminate].
    intros H. apply (f_equal (fun p => truthy (JStr p))) in H.
    rewrite audio_path_truthy in H. discriminate H.
Qed.

(** The turn of [Sample.hi_there] with every service answering sets the
    audio reference. *)
Lemma audio_set_reachable : Reachable audio_set.
Proof.
  apply run_reachable; [apply typed_reachable|].
  apply Forall_forall. intros e He.
  exact (EmitsSend Sample.hi_there Sample.all_up e He).
Defined.

Lemma X11_audio_reference_shape_witness :
  audioFile audio_set = js "/audios/audio-1.mp3"
  /\ (audioFile audio_set = []
      \/ exists id, audioFile audio_set = js "/audios/" ++ id ++ js ".mp3")
  /\ (audioFile audio_set = [] <-> trace (playbackEffect audio_set) = []).
Proof.
  split; [reflexivity|].
  exact (X11_audio_reference_shape audio_set audio_set_reachable).
Defined.

(** X12: no step of a session changes what local storage holds under a
    key other than "chatMessages". *)
Theorem X12_storage_key st st' :
  Step st st' ->
  forall k, k <> chatMessages -> localStorage st' !! k = localStorage st !! k.
Proof.
  intros Hs k Hk. inversion Hs as [st0 viseme|st0 e He]; subst.
  - pose proof (frame_cells st viseme) as H. cbv zeta in H.
    destruct H as (_ & _ & _ & _ & ->). reflexivity.
  - apply Emits_disciplined in He.
    destruct e; try reflexivity; cbn in He; subst; cbn.
    + now apply lookup_insert_ne.
    + now apply lookup_delete_ne.
Qed.

Lemma remove_step st : Step st (apply_effect st (StorageRemoveItem chatMessages)).
Proof.
  apply StepEffect, EmitsReset. cbn. rewrite !elem_of_cons. auto.
Defined.

Lemma X12_storage_key_witness :
  localStorage (apply_effect (initial_state {[ js "theme" := [] ]})
                  (StorageRemoveItem chatMessages)) !! js "theme"
  = localStorage (initial_state {[ js "theme" := [] ]}) !! js "theme".
Proof.
  apply (X12_storage_key _ _ (remove_step (initial_state {[ js "theme" := [] ]}))).
  vm_compute. discriminate.
Defined.

(** X13: in every state a session can reach the theme is "neon", "dark"
    or "light"; one [toggleTheme] changes it and three bring it back. *)
Theorem X13_theme_cycle st :
  Reachable st ->
  theme st ∈ themes
  /\ theme (run st (trace toggleTheme ++ trace toggleTheme ++ trace toggleTheme))
     = theme st
  /\ theme (run st (trace toggleTheme)) <> theme st.
Proof.
  intros Hr. destruct (cells_invariant_reachable st Hr) as (_ & Ht & _).
  split; [exact Ht|].
  unfold themes in Ht. rewrite !elem_of_cons in Ht. cbn.
  destruct Ht as [->|[->|[->|H]]]; [| | |now apply elem_of_nil in H];
    split; vm_compute; congruence.
Qed.

Lemma X13_theme_cycle_witness :
  theme Sample.three_frames ∈ themes
  /\ theme (run Sample.three_frames
              (trace toggleTheme ++ trace toggleTheme ++ trace toggleTheme))
     = theme Sample.three_frames.
Proof.
  destruct (X13_theme_cycle Sample.three_frames three_frames_reachable) as (H1 & H2 & _).
  split; assumption.
Defined.

(** ** The language effect and the badge *)

(** X14: the language effect settles after one run: run again on the
    state its own updates produce, it emits nothing.  When it sets the
    detected language, it sets a supported tag different from the current
    one; on an input whose trimmed length is below 3 it emits nothing. *)
Theorem X14_language_effect_settles franc r :
  trace (languageEffect franc (run r (trace (languageEffect franc r)))) = []
  /\ (forall v, SetDetectedLang v ∈ trace (languageEffect franc r) ->
        v ∈ supported_tags /\ v <> detectedLang r)
  /\ (forall s, message r = JStr s -> (length (trim s) < 3)%nat ->
        trace (languageEffect franc r) = []).
Proof.
  split; [|split].
  - unfold languageEffect at 2.
    destruct (message r) as [| | | |s| | | |] eqn:Hm; cbn [String_trim];
      try (rewrite bind_throw; cbn [trace throw fst run foldl];
           unfold languageEffect; rewrite Hm; reflexivity).
    rewrite bind_ret.
    destruct (3 <=? length (trim s))%nat eqn:Hlen;
      [|cbn [trace ret fst run foldl]; unfold languageEffect;
        rewrite Hm; cbn [String_trim]; rewrite bind_ret, Hlen; reflexivity].
    destruct (strict_eq_str (detectedLang r) (to_string (detectLanguage franc s))) eqn:He;
      cbn [negb].
    + cbn [trace ret fst run foldl]. unfold languageEffect.
      rewrite Hm. cbn [String_trim]. rewrite bind_ret, Hlen, He. reflexivity.
    + pose proof (detectLanguage_supported franc s) as Hs.
      apply is_supported_tags in Hs.
      cbn [trace emit fst].
      match goal with |- context [run r ?t] => set (st' := run r t) end.
      assert (Hm' : message st' = JStr s) by exact Hm.
      assert (Hd' : detectedLang st' = detectLanguage franc s) by reflexivity.
      unfold languageEffect. rewrite Hm', Hd'. cbn [String_trim].
      rewrite bind_ret, Hlen.
      unfold supported_tags in Hs. rewrite !elem_of_cons in Hs.
      destruct Hs as [E|[E|[E|H]]]; [| | |now apply elem_of_nil in H];
        rewrite E; reflexivity.
  - intros v Hin. unfold languageEffect in Hin.
    destruct (message r) as [| | | |s| | | |] eqn:Hm; cbn [String_trim] in Hin;
      try (rewrite bind_throw in Hin; now apply elem_of_nil in Hin).
    rewrite bind_ret in Hin.
    destruct (3 <=? length (trim s))%nat; [|now apply elem_of_nil in Hin].
    destruct (strict_eq_str (detectedLang r) (to_string (detectLanguage franc s))) eqn:He;
      cbn [negb] in Hin; [now apply elem_of_nil in Hin|].
    cbn [trace emit fst] in Hin. rewrite !elem_of_cons in Hin.
    destruct Hin as [[= ->]|[[=]|[[=]|[[=]|Hin]]]]; [|now apply elem_of_nil in Hin].
    pose proof (detectLanguage_supported franc s) as Hs.
    apply is_supported_tags in Hs. split; [exact Hs|].
    intros Heq. rewrite <- Heq in He.
    unfold supported_tags in Hs. rewrite !elem_of_cons in Hs.
    destruct Hs as [E|[E|[E|H]]]; [| | |now apply elem_of_nil in H];
      rewrite E in He; discriminate He.
  - intros s Hm Hlen. unfold languageEffect. rewrite Hm. cbn [String_trim].
    rewrite bind_ret.
    apply Nat.leb_gt in Hlen. now rewrite Hlen.
Qed.

Lemma X14_language_effect_settles_witness :
  (JStr (js "fr") ∈ supported_tags /\ JStr (js "fr") <> detectedLang bonjour)
  /\ trace (languageEffect franc_fra (Sample.typed "Hi")) = [].
Proof.
  pose proof (X14_language_effect_settles franc_fra bonjour) as (_ & Hset & _).
  pose proof (X14_language_effect_settles franc_fra (Sample.typed "Hi")) as (_ & _ & Hshort).
  split.
  - apply Hset. vm_compute. constructor.
  - apply (Hshort (js "Hi")); [reflexivity|]. vm_compute. lia.
Defined.

Lemma getLangLabel_other (s : jsstring) :
  s <> js "en" -> s <> js "fr" -> s <> js "ar" -> getLangLabel (JStr s) = JStr s.
Proof.
  intros H1 H2 H3. unfold getLangLabel, LANGUAGES. cbn [find value strict_eq_str].
  rewrite !bool_decide_eq_false_2 by assumption. reflexivity.
Qed.

(** X15: the label function of [LanguageIndicator] (a table lookup) and
    [getLangLabel] of [ChatInterface] (a search of [LANGUAGES]) agree on
    every string that is not the name of a member of [Object.prototype];
    on the names of its methods the table lookup returns the inherited
    function where the search returns the string.  On whatever
    [detectLanguage] returns they agree, and give one of the three
    labels. *)
Theorem X15_labels_agree :
  (forall s, s ∉ object_prototype_methods -> s <> js "__proto__" ->
     LanguageIndicator.getLangLabel (JStr s) = getLangLabel (JStr s))
  /\ (forall k, k ∈ object_prototype_methods ->
        LanguageIndicator.getLangLabel (JStr k) = JFun k
        /\ getLangLabel (JStr k) = JStr k)
  /\ (forall franc text,
        LanguageIndicator.getLangLabel (detectLanguage franc text)
        = getLangLabel (detectLanguage franc text)
        /\ getLangLabel (detectLanguage franc text) ∈ labels).
Proof.
  split; [|split].
  - intros s Hp Hproto.
    destruct (decide (s = js "en")) as [->|H1]; [reflexivity|].
    destruct (decide (s = js "fr")) as [->|H2]; [reflexivity|].
    destruct (decide (s = js "ar")) as [->|H3]; [reflexivity|].
    rewrite (getLangLabel_other s H1 H2 H3).
    unfold LanguageIndicator.getLangLabel, LanguageIndicator.languages.
    cbn [to_string prop assoc].
    destruct (decide (s = js "en")); [contradiction|].
    destruct (decide (s = js "fr")); [contradiction|].
    destruct (decide (s = js "ar")); [contradiction|].
    unfold inherited.
    rewrite (bool_decide_eq_false_2 _ Hp), (bool_decide_eq_false_2 _ Hproto).
    reflexivity.
  - intros k Hk. unfold object_prototype_methods in Hk.
    rewrite !elem_of_cons in Hk.
    repeat (destruct Hk as [->|Hk]; [split; reflexivity|]).
    now apply elem_of_nil in Hk.
  - intros franc text.
    pose proof (detectLanguage_supported franc text) as Hs.
    apply is_supported_tags in Hs.
    unfold supported_tags in Hs. rewrite !elem_of_cons in Hs.
    unfold labels.
    destruct Hs as [->|[->|[->|H]]]; [| | |now apply elem_of_nil in H];
      (split; [reflexivity|]); vm_compute; repeat constructor.
Qed.

Lemma X15_labels_agree_witness :
  LanguageIndicator.getLangLabel (JStr (js "es")) = getLangLabel (JStr (js "es"))
  /\ LanguageIndicator.getLangLabel (JStr (js "constructor")) = JFun (js "constructor").
Proof.
  destruct X15_labels_agree as (Hagree & Hproto & _).
  split.
  - apply Hagree.
    + apply (bool_decide_unpack _). vm_compute. exact I.
    + vm_compute. discriminate.
  - apply (Hproto (js "constructor")).
    apply (bool_decide_unpack _). vm_compute. exact I.
Defined.

(** ** The earlier component *)

(** X16: [handleSendMessage] of [Visualizer] never sends a request and
    never appends an avatar message, whatever the input and the services.
    For an input that is not blank it does not throw: it appends the user's
    message, raises an error notification (the [const detectedLang] read
    before its declaration) and switches the loading indicator off. *)
Theorem X16_visualizer_send_never_requests r lang env :
  count is_network_call (trace (Visualizer.handleSendMessage r lang env)) = 0%nat
  /\ count is_avatar_append (trace (Visualizer.handleSendMessage r lang env)) = 0%nat
  /\ (forall s, message r = JStr s -> blank s = false ->
        outcome (Visualizer.handleSendMessage r lang env) = inr tt
        /\ existsb is_error_notification
             (trace (Visualizer.handleSendMessage r lang env)) = true
        /\ forall st,
             messages (run st (trace (Visualizer.handleSendMessage r lang env)))
             = messages st ++ [ {| text := JStr s; sender := js "user" |} ]
             /\ isLoading (run st (trace (Visualizer.handleSendMessage r lang env)))
                = false).
Proof.
  unfold Visualizer.handleSendMessage.
  destruct (message r) as [| | | |s| | | |] eqn:Hm; cbn [String_trim];
    try (repeat split; try reflexivity; intros; discriminate).
  rewrite bind_emit, bind_ret.
  destruct (truthy (JStr (trim s))) eqn:Ht; cbn [negb].
  - split; [reflexivity|]. split; [reflexivity|].
    intros s' [= <-] Hb. repeat split.
  - split; [reflexivity|]. split; [reflexivity|].
    intros s' [= <-] Hb. rewrite (truthy_trim _ Hb) in Ht. discriminate Ht.
Qed.

Lemma X16_visualizer_send_never_requests_witness :
  outcome (Visualizer.handleSendMessage Sample.hi_there (JStr (js "en")) Sample.all_up)
  = inr tt
  /\ existsb is_error_notification
       (trace (Visualizer.handleSendMessage Sample.hi_there (JStr (js "en"))
                 Sample.all_up)) = true.
Proof.
  destruct (proj2 (proj2 (X16_visualizer_send_never_requests Sample.hi_there
                            (JStr (js "en")) Sample.all_up))
              (js "Hi there") eq_refl eq_refl) as (H1 & H2 & _).
  split; assumption.
Defined.

(** X17: [handleResetChat] of [Visualizer] throws (it calls a
    [setDetectedLang] the component does not declare) after it has emptied
    the message list, removed the stored copy and set the notification;
    it arms no timer and leaves the detected language alone. *)
Theorem X17_visualizer_reset_throws (st : State) :
  (exists err, outcome Visualizer.handleResetChat = inl err)
  /\ count is_timer (trace Visualizer.handleResetChat) = 0%nat
  /\ messages (run st (trace Visualizer.handleResetChat)) = []
  /\ localStorage (run st (trace Visualizer.handleResetChat)) !! chatMessages = None
  /\ truthy (notification (run st (trace Visualizer.handleResetChat))) = true
  /\ detectedLang (run st (trace Visualizer.handleResetChat)) = detectedLang st.
Proof.
  split; [eexists; reflexivity|]. repeat split. cbn. apply lookup_delete_eq.
Qed.

(** X18: [detectLanguage] of [Visualizer] returns "en" for every text: the
    file does not import [franc], and the error of calling it is caught. *)
Theorem X18_visualizer_detects_english (text : jsstring) :
  Visualizer.detectLanguage text = ([], inr (JStr (js "en"))).
Proof.
  unfold Visualizer.detectLanguage. destruct (negb _ || _); reflexivity.
Qed.

(** ** Playback *)

(** X19: playback.  After the [ended] listener the audio reference is
    empty, the playing flag is off and the playback effect does nothing.
    [toggleAudio] of one render followed by [toggleAudio] of the next
    restores the playing flag, with one pause and one play between them;
    it never sets the element's source nor the audio reference.  On a
    non-empty audio reference the playback effect sets the source,
    connects the analyser, plays, and sets the playing flag. *)
Theorem X19_playback_bridge (st : State) :
  (audioFile (run st (trace handleAudioEnded)) = []
   /\ isPlaying (run st (trace handleAudioEnded)) = false
   /\ trace (playbackEffect (run st (trace handleAudioEnded))) = [])
  /\ (isPlaying (run (run st (trace (toggleAudio st)))
                     (trace (toggleAudio (run st (trace (toggleAudio st))))))
      = isPlaying st
      /\ count is_play (trace (toggleAudio st)
                        ++ trace (toggleAudio (run st (trace (toggleAudio st)))))
         = 1%nat
      /\ count is_pause (trace (toggleAudio st)
                         ++ trace (toggleAudio (run st (trace (toggleAudio st)))))
         = 1%nat
      /\ count is_set_src (trace (toggleAudio st)) = 0%nat
      /\ audioFile (run st (trace (toggleAudio st))) = audioFile st)
  /\ (audioFile st <> [] ->
      trace (playbackEffect st)
      = [AudioSetSrc (audioFile st); ConnectAudio; AudioPlay; SetIsPlaying true]
      /\ isPlaying (run st (trace (playbackEffect st))) = true).
Proof.
  split; [repeat split|]. split.
  - unfold toggleAudio. destruct (isPlaying st) eqn:E; cbn; rewrite ?E; repeat split.
  - intros Hne. unfold playbackEffect.
    destruct (audioFile st) as [|c p] eqn:E; [contradiction|]. split; reflexivity.
Qed.

Lemma X19_playback_bridge_witness :
  trace (playbackEffect (set_audioFile (js "/audios/audio-1.mp3") Sample.hi_there))
  = [AudioSetSrc (js "/audios/audio-1.mp3"); ConnectAudio; AudioPlay; SetIsPlaying true].
Proof.
  apply (proj2 (proj2 (X19_playback_bridge
                         (set_audioFile (js "/audios/audio-1.mp3") Sample.hi_there)))).
  vm_compute. discriminate.
Defined.

Lemma handleInputKeyDown_other r env key :
  strict_eq_str key (js "Enter") = false -> handleInputKeyDown r env key = ([], inr tt).
Proof. intros H. unfold handleInputKeyDown. now rewrite H. Qed.
